(** * The sandboxed execution core of the code executor (src/server.py)

    A shallow embedding of [ExecutionResult], [validate_code],
    [create_safe_globals], [set_resource_limits],
    [CodeExecutor._execute_code_safely] and
    [CodeExecutor.execute_code_in_process].

    The Python interpreter ([compile], [exec], the call of the entry point),
    the kernel ([resource.setrlimit]), the pickling of what the worker
    sends back and the iteration order of the set [FORBIDDEN_MODULES] are
    not part of the repository: they are the fields of a record [world]
    over which every definition is parameterised. *)

From stdpp Require Import base option list strings gmap fin_maps.
From Stdlib Require Import ZArith Ascii String Permutation.
From stdpp Require Import pretty.

Set Warnings "-register-all".

Open Scope string_scope.
Open Scope Z_scope.

(** ** Python values *)

(** Callables reachable from the snippet's globals. *)
Inductive callable : Type :=
| Builtin (name : string)      (* getattr(__builtins__, name) *)
| PrintStub                    (* lambda *args, **kwargs: None *)
| Closure (id : nat).          (* a function the snippet defined *)

(** JSON-compatible values (floats left out) plus function objects.
    [VNone] is Python's [None]. *)
Inductive value : Type :=
| VNone
| VBool (b : bool)
| VInt (z : Z)
| VStr (s : string)
| VList (l : list value)
| VDict (d : list (string * value))
| VFun (c : callable).

Definition is_None (v : value) : bool :=
  match v with VNone => true | _ => false end.

(** [type(v).__name__], as it shows in the TypeError of a failed call. *)
Definition type_name (v : value) : string :=
  match v with
  | VNone => "NoneType"
  | VBool _ => "bool"
  | VInt _ => "int"
  | VStr _ => "str"
  | VList _ => "list"
  | VDict _ => "dict"
  | VFun _ => "function"
  end.

(** Values that are pickled whatever the sandbox did: data, and the
    builtins, which pickle writes by name.  A function object defined in
    the sandbox (a closure, the print stub) is not among them. *)
Fixpoint pickled_by_name (v : value) : bool :=
  match v with
  | VList l => List.forallb pickled_by_name l
  | VDict d => List.forallb (fun kv => pickled_by_name (snd kv)) d
  | VFun (Builtin _) => true
  | VFun _ => false
  | _ => true
  end.

(** ** Exceptions *)

(** The classes the handlers of server.py tell apart.  [NonException]
    stands for the classes that derive from [BaseException] but not from
    [Exception] (SystemExit, KeyboardInterrupt, GeneratorExit, or
    BaseException itself). *)
Inductive exc_class : Type :=
| SecurityError
| TimeoutError
| OtherException
| NonException.

Record exn : Type := MkExn { exc_cls : exc_class; exc_msg : string }.

(** [isinstance(e, Exception)] *)
Definition is_Exception (e : exn) : bool :=
  match exc_cls e with NonException => false | _ => true end.

(** ** ExecutionResult *)

Record ExecutionResult : Type := MkResult {
  status : string;
  result : value;                  (* Any | None *)
  error : option string;           (* str | None *)
  traceback : option string        (* str | None *)
}.

(** The keyword constructors used in server.py; omitted fields default to
    None. *)
Definition success_result (v : value) : ExecutionResult :=
  MkResult "success" v None None.
Definition error_result (msg : string) : ExecutionResult :=
  MkResult "error" VNone (Some msg) None.
Definition error_result_tb (msg tb : string) : ExecutionResult :=
  MkResult "error" VNone (Some msg) (Some tb).

(** [self.__dict__.items()]: the fields in declaration order.  A field of
    type [str | None] holding None is the value [VNone]. *)
Definition opt_str (o : option string) : value :=
  match o with Some s => VStr s | None => VNone end.

Definition fields (r : ExecutionResult) : list (string * value) :=
  [ ("status", VStr (status r));
    ("result", result r);
    ("error", opt_str (error r));
    ("traceback", opt_str (traceback r)) ].

(** [{k: v for k, v in self.__dict__.items() if v is not None}] *)
Definition to_dict (r : ExecutionResult) : list (string * value) :=
  List.filter (fun kv => negb (is_None (snd kv))) (fields r).

(** ** Constants *)

Definition SAFE_BUILTINS : list string :=
  [ "abs"; "all"; "any"; "ascii"; "bin"; "bool"; "bytearray"; "bytes";
    "chr"; "complex"; "dict"; "divmod"; "enumerate"; "filter"; "float";
    "format"; "frozenset"; "hash"; "hex"; "int"; "isinstance"; "issubclass";
    "iter"; "len"; "list"; "map"; "max"; "min"; "next"; "oct"; "ord";
    "pow"; "print"; "range"; "repr"; "reversed"; "round"; "set"; "slice";
    "sorted"; "str"; "sum"; "tuple"; "type"; "zip" ].

Definition FORBIDDEN_MODULES : list string :=
  [ "os"; "sys"; "subprocess"; "socket"; "requests"; "urllib";
    "pathlib"; "pickle"; "shutil"; "importlib"; "builtins" ].

Inductive rlimit : Type :=
| RLIMIT_CPU | RLIMIT_AS | RLIMIT_FSIZE | RLIMIT_NPROC | RLIMIT_NOFILE.

Definition CPU_TIME : Z := 1.
Definition MEMORY : Z := 100 * 1024 * 1024.
Definition FILE_SIZE : Z := 1024 * 1024.
Definition PROCESSES : Z := 1.
Definition OPEN_FILES : Z := 10.

(** The five ceilings, in the order [set_resource_limits] installs them. *)
Definition RESOURCE_LIMITS : list (rlimit * Z) :=
  [ (RLIMIT_CPU, CPU_TIME); (RLIMIT_AS, MEMORY); (RLIMIT_FSIZE, FILE_SIZE);
    (RLIMIT_NPROC, PROCESSES); (RLIMIT_NOFILE, OPEN_FILES) ].

(** ** Strings *)

(** Python's [needle in hay] on str. *)
Fixpoint contains (needle hay : string) : bool :=
  if String.prefix needle hay then true
  else match hay with
       | EmptyString => false
       | String _ rest => contains needle rest
       end.

(** ** validate_code *)

(** The test of one loop iteration:
    [f"import {module}" in code or f"from {module}" in code]. *)
Definition import_hit (code module : string) : bool :=
  contains ("import " +:+ module) code || contains ("from " +:+ module) code.

(** [for module in FORBIDDEN_MODULES: if ...: raise ...]: the first module,
    in iteration order, whose test succeeds.  [order] is the order in which
    the set is iterated. *)
Definition forbidden_import (order : list string) (code : string)
  : option string :=
  List.find (import_hit code) order.

(** [inl msg] is [raise SecurityError(msg)], [inr tt] the normal return. *)
Definition validate_code (order : list string) (code : string)
  : string + unit :=
  match forbidden_import order code with
  | Some module =>
      inl ("Importing module '" +:+ module +:+ "' is not allowed")
  | None =>
      if contains "eval(" code || contains "exec(" code
      then inl "Using eval() or exec() is not allowed"
      else if contains "open(" code || contains "file(" code
      then inl "File operations are not allowed"
      else inr tt
  end.

(** ** create_safe_globals *)

(** The dict comprehension over [SAFE_BUILTINS]. *)
Definition safe_builtins_dict : value :=
  VDict (List.map (fun name => (name, VFun (Builtin name))) SAFE_BUILTINS).

Definition create_safe_globals : gmap string value :=
  <["print" := VFun PrintStub]> (<["__builtins__" := safe_builtins_dict]> ∅).

(** [d.update(other)]: the bindings of [other] win. *)
Definition update (d other : gmap string value) : gmap string value :=
  other ∪ d.

(** ** The world outside the repository *)

(** How a call into the interpreter ends, seen from the worker process.
    [Ret a]: it returned [a] before the supervisor's deadline.  [Raise e]:
    it raised [e] before the deadline.  [Stall]: it has not ended when the
    deadline expires, and the worker process ends later (the call ends, or
    the kernel ends the process).  [Hang]: it has not ended when the
    deadline expires and the worker process never ends (it blocks without
    using CPU time).  [Killed]: the kernel ended the worker process before
    the deadline (a resource ceiling was hit). *)
Inductive outcome (A : Type) : Type :=
| Ret (a : A)
| Raise (e : exn)
| Stall
| Hang
| Killed.
Arguments Ret {A} a.
Arguments Raise {A} e.
Arguments Stall {A}.
Arguments Hang {A}.
Arguments Killed {A}.

(** A compiled unit: [compile(code, '<string>', 'exec')]. *)
Record code_obj : Type := MkCode { co_source : string }.

Record world : Type := MkWorld {
  (* iteration order of the set FORBIDDEN_MODULES in this process *)
  set_order : list string;
  (* resource.setrlimit(r, (soft, hard)): None, or the message of the
     ValueError / OSError it raises *)
  os_setrlimit : rlimit -> Z -> Z -> option string;
  (* compile(code, '<string>', 'exec') *)
  py_compile : string -> outcome code_obj;
  (* exec(compiled_code, globals_dict): the globals afterwards *)
  py_exec : code_obj -> gmap string value -> outcome (gmap string value);
  (* the call of the function object f with keyword arguments kwargs *)
  py_call : callable -> gmap string value -> outcome value;
  (* traceback.format_exc() while e is being handled *)
  format_exc : exn -> string;
  (* pickling, for the result queue of the pool, a value that holds a
     function object defined in the sandbox: None, or the exception raised *)
  py_pickle : value -> option exn;
  (* pickling an exception object for the result queue: None, or the
     exception raised *)
  py_pickle_exc : exn -> option exn
}.

(** The set is the one of the source, whatever its iteration order. *)
Definition world_ok (w : world) : Prop :=
  Permutation (set_order w) FORBIDDEN_MODULES.

(** ** Effects of the worker process *)

(** What the worker does to the outside, in order. *)
Inductive event : Type :=
| EvSetLimit (r : rlimit) (soft hard : Z)
| EvLogError (msg : string)
| EvCompile (src : string)
| EvExec (c : code_obj) (g : gmap string value)
| EvCall (f : value) (kwargs : gmap string value).

(** Events in which submitted code is handed to the interpreter. *)
Definition touches_code (ev : event) : bool :=
  match ev with
  | EvCompile _ | EvExec _ _ | EvCall _ _ => true
  | _ => false
  end.

(** A computation of the worker: it extends the trace of events and ends
    in an [outcome]. *)
Definition proc (A : Type) : Type := list event -> list event * outcome A.

Definition ret {A} (a : A) : proc A := fun tr => (tr, Ret a).
Definition raise {A} (e : exn) : proc A := fun tr => (tr, Raise e).
Definition emit (ev : event) : proc unit := fun tr => ((tr ++ [ev])%list, Ret tt).
Definition lift {A} (o : outcome A) : proc A := fun tr => (tr, o).

#[export] Instance proc_ret : MRet proc := @ret.

#[export] Instance proc_bind : MBind proc := fun A B (k : A -> proc B) (m : proc A) =>
  fun tr =>
    match m tr with
    | (tr', Ret a) => k a tr'
    | (tr', Raise e) => (tr', Raise e)
    | (tr', Stall) => (tr', Stall)
    | (tr', Hang) => (tr', Hang)
    | (tr', Killed) => (tr', Killed)
    end.

(** [try: m  except <classes accepted by h> as e: h e] *)
Definition try_except {A} (m : proc A) (h : exn -> option (proc A)) : proc A :=
  fun tr =>
    match m tr with
    | (tr', Raise e) =>
        match h e with
        | Some k => k tr'
        | None => (tr', Raise e)
        end
    | other => other
    end.

Section Worker.
Variable w : world.

(** [resource.setrlimit(r, (v, v))] *)
Definition setrlimit (r : rlimit) (v : Z) : proc unit :=
  emit (EvSetLimit r v v) ;;
  match os_setrlimit w r v v with
  | None => ret tt
  | Some msg => raise (MkExn OtherException msg)
  end.

Definition set_resource_limits : proc unit :=
  try_except
    (setrlimit RLIMIT_CPU CPU_TIME ;;
     setrlimit RLIMIT_AS MEMORY ;;
     setrlimit RLIMIT_FSIZE FILE_SIZE ;;
     setrlimit RLIMIT_NPROC PROCESSES ;;
     setrlimit RLIMIT_NOFILE OPEN_FILES)
    (fun e =>
       if is_Exception e
       then Some (emit (EvLogError ("Failed to set resource limits: " +:+ exc_msg e)) ;;
                  raise e)
       else None).

(** [validate_code(code)] inside the worker. *)
Definition run_validate (code : string) : proc unit :=
  match validate_code (set_order w) code with
  | inl msg => raise (MkExn SecurityError msg)
  | inr _ => ret tt
  end.

(** How the call of [f] with keyword arguments [kwargs] ends: only function
    objects can be called, anything else is a TypeError. *)
Definition invoke (f : value) (kwargs : gmap string value) : outcome value :=
  match f with
  | VFun PrintStub => Ret VNone
  | VFun c => py_call w c kwargs
  | _ => Raise (MkExn OtherException
                  ("'" +:+ type_name f +:+ "' object is not callable"))
  end.

Definition call_value (f : value) (kwargs : gmap string value) : proc value :=
  emit (EvCall f kwargs) ;; lift (invoke f kwargs).

Definition _execute_code_safely (code : string) (params : gmap string value)
  : proc ExecutionResult :=
  try_except
    (set_resource_limits ;;
     run_validate code ;;
     let globals_dict := update create_safe_globals params in
     compiled_code ← (emit (EvCompile code) ;; lift (py_compile w code)) ;
     globals_dict' ← (emit (EvExec compiled_code globals_dict) ;;
                       lift (py_exec w compiled_code globals_dict)) ;
     match globals_dict' !! "main" with
     | None => ret (error_result "No main function defined")
     | Some main =>
         result ← call_value main params ;
         ret (success_result result)
     end)
    (fun e =>
       match exc_cls e with
       | SecurityError =>
           Some (ret (error_result ("Security violation: " +:+ exc_msg e)))
       | TimeoutError | OtherException =>
           Some (ret (error_result_tb (exc_msg e) (format_exc w e)))
       | NonException => None
       end).

(** ** The supervisor *)

(** What [await asyncio.wait_for(future, timeout=CPU_TIME)] does. *)
Inductive awaited : Type :=
| Got (r : ExecutionResult)
| Raised (e : exn).

Definition BrokenProcessPool : exn :=
  MkExn OtherException
    "A process in the process pool was terminated abruptly while the future was running or pending.".

(** Pickling the value of the [result] field; the other fields of the
    record are strings. *)
Definition pickle_value (v : value) : option exn :=
  if pickled_by_name v then None else py_pickle w v.

(** The worker sends its answer through the result queue of the pool, which
    pickles it.  When pickling what was to be sent raises [e], the worker
    sends [e] instead; when [e] cannot be pickled either, the worker
    process dies and the pool is broken. *)
Definition sent_instead (e : exn) : exn :=
  match py_pickle_exc w e with
  | None => e
  | Some _ => BrokenProcessPool
  end.

(** What pickling the answer of the worker raises, if anything. *)
Definition pickling_failure (o : outcome ExecutionResult) : option exn :=
  match o with
  | Ret r => pickle_value (result r)
  | Raise e => py_pickle_exc w e
  | _ => None
  end.

(** The worker's return value, once pickled, is the future's result; an
    exception leaving the worker function is pickled and re-raised by the
    future; a pickling failure is raised in their place; no answer by the
    deadline is [asyncio.TimeoutError]; a dead worker breaks the pool. *)
Definition wait_for (o : outcome ExecutionResult) : awaited :=
  match o with
  | Ret r =>
      match pickle_value (result r) with
      | None => Got r
      | Some e => Raised (sent_instead e)
      end
  | Raise e =>
      match py_pickle_exc w e with
      | None => Raised e
      | Some e' => Raised (sent_instead e')
      end
  | Stall | Hang => Raised (MkExn TimeoutError "")
  | Killed => Raised BrokenProcessPool
  end.

(** What the coroutine does for its caller. *)
Inductive call_result : Type :=
| Returned (r : ExecutionResult)
| Propagated (e : exn).

(** The body of the [with ProcessPoolExecutor] block: the value the
    coroutine is about to return, or the exception it is about to let
    through, together with the trace of the worker.  The caller receives
    it when the block has been left, see [with_exit] and
    [execute_code_in_process_call]. *)
Definition execute_code_in_process (code : string) (params : gmap string value)
  : list event * call_result :=
  let '(tr, o) := _execute_code_safely code params [] in
  (tr,
   match wait_for o with
   | Got r => Returned r
   | Raised e =>
       match exc_cls e with
       | TimeoutError => Returned (error_result "Execution timeout")
       | SecurityError | OtherException =>
           Returned (error_result_tb (exc_msg e) (format_exc w e))
       | NonException => Propagated e
       end
   end).

(** *** Leaving the with block *)

(** The operations on the pool and its worker process.  The source
    performs the first four, in this order, for every request; no call of
    the source ends the worker process. *)
Inductive pool_action : Type :=
| PoolCreate (max_workers : Z)   (* ProcessPoolExecutor(max_workers=1) *)
| PoolSubmit                     (* loop.run_in_executor(executor, ...) *)
| PoolAwait (timeout : Z)        (* asyncio.wait_for(future, timeout=...) *)
| PoolShutdown (wait : bool)     (* leaving the with block *)
| PoolTerminate.                 (* ending the worker process *)

Definition pool_actions : list pool_action :=
  [PoolCreate 1; PoolSubmit; PoolAwait CPU_TIME; PoolShutdown true].

(** When the block is left.  Following the documentation of
    concurrent.futures, leaving the block calls [shutdown(wait=True)],
    which returns once the pending call has ended and the worker process
    has exited. *)
Inductive pool_exit : Type :=
| ExitAtOnce        (* the worker has answered or is dead *)
| ExitAfterWorker   (* the exit waits until the worker has ended *)
| ExitNever.        (* the worker never ends: the exit never completes *)

Definition with_exit (o : outcome ExecutionResult) : pool_exit :=
  match o with
  | Stall => ExitAfterWorker
  | Hang => ExitNever
  | _ => ExitAtOnce
  end.

(** [await CodeExecutor.execute_code_in_process(code, params)] as its
    caller sees it: what the body of the block yields, once the block has
    been left; [None] when the call never returns. *)
Definition execute_code_in_process_call
    (code : string) (params : gmap string value) : option call_result :=
  match with_exit (snd (_execute_code_safely code params [])) with
  | ExitNever => None
  | _ => Some (snd (execute_code_in_process code params))
  end.

End Worker.

(** ** Concrete worlds *)

Definition nl : string := String (ascii_of_nat 10) EmptyString.

(** A host on which every ceiling can be installed. *)
Definition limits_granted : rlimit -> Z -> Z -> option string :=
  fun _ _ _ => None.

(** A host whose own hard address-space limit is below [MEMORY]. *)
Definition as_limit_refused : rlimit -> Z -> Z -> option string :=
  fun r _ _ =>
    match r with
    | RLIMIT_AS => Some "not allowed to raise maximum limit"
    | _ => None
    end.

Definition sample_format_exc (e : exn) : string :=
  "Traceback (most recent call last): " +:+ exc_msg e.

(** A world in which every text compiles, running the unit has the effect
    [top] on the globals and the functions it defines behave as [fn];
    function objects of the sandbox cannot be pickled, exceptions can. *)
Definition snippet_world
    (limits : rlimit -> Z -> Z -> option string)
    (top : gmap string value -> outcome (gmap string value))
    (fn : callable -> gmap string value -> outcome value) : world :=
  {| set_order := FORBIDDEN_MODULES;
     os_setrlimit := limits;
     py_compile := fun src => Ret (MkCode src);
     py_exec := fun _ g => top g;
     py_call := fn;
     format_exc := sample_format_exc;
     py_pickle := fun _ => Some (MkExn OtherException
                                   "Can't pickle local object");
     py_pickle_exc := fun _ => None |}.

(** def main(x, y): return {'sum': x+y} *)
Definition sum_code : string := "def main(x, y): return {'sum': x+y}".

Definition sum_main (f : callable) (kwargs : gmap string value)
  : outcome value :=
  match f, kwargs !! "x", kwargs !! "y" with
  | Closure 0, Some (VInt x), Some (VInt y) =>
      if decide (size kwargs = 2%nat)
      then Ret (VDict [("sum", VInt (x + y))])
      else Raise (MkExn OtherException
                    "main() got an unexpected keyword argument")
  | _, _, _ => Raise (MkExn OtherException "unsupported call")
  end.

Definition sum_world : world :=
  snippet_world limits_granted
    (fun g => Ret (<["main" := VFun (Closure 0)]> g)) sum_main.

Definition sum_params : gmap string value :=
  <["x" := VInt 10]> (<["y" := VInt 20]> ∅).

(** def main(): return None *)
Definition none_code : string := "def main(): return None".

Definition none_world : world :=
  snippet_world limits_granted
    (fun g => Ret (<["main" := VFun (Closure 0)]> g))
    (fun _ _ => Ret VNone).

(** import os / def main(): return os.listdir('.') *)
Definition os_code : string :=
  "import os" +:+ nl +:+ "def main(): return os.listdir('.')".

(** The same request on a host that refuses the address-space ceiling.
    The interpreter is never reached; its fields are placeholders. *)
Definition refused_world : world :=
  snippet_world as_limit_refused
    (fun g => Ret g)
    (fun _ _ => Raise (MkExn OtherException "unsupported call")).

Definition granted_world : world :=
  snippet_world limits_granted
    (fun g => Ret g)
    (fun _ _ => Raise (MkExn OtherException "unsupported call")).

(** A snippet without entry point: x = 1 *)
Definition assign_code : string := "x = 1".

Definition assign_world : world :=
  snippet_world limits_granted
    (fun g => Ret (<["x" := VInt 1]> g))
    (fun _ _ => Raise (MkExn OtherException "unsupported call")).

(** The request body {"code": "x = 1", "params": {"main": 1}}. *)
Definition main_params : gmap string value := <["main" := VInt 1]> ∅.

(** Params that collide with both fixed bindings of the environment. *)
Definition colliding_params : gmap string value :=
  <["print" := VInt 1]> (<["__builtins__" := VInt 2]> ∅).

(** A snippet whose entry point raises an exception that does not derive
    from Exception; the class is reached from the allowed builtin [type]:

    def main(): raise [c for c in type(0).__mro__[-1].__subclasses__()
                       if c.__name__ == 'BaseException'][0]('boom') *)
Definition base_exception_code : string :=
  "def main(): raise [c for c in type(0).__mro__[-1].__subclasses__() if c.__name__ == 'BaseException'][0]('boom')".

Definition base_exception_world : world :=
  snippet_world limits_granted
    (fun g => Ret (<["main" := VFun (Closure 0)]> g))
    (fun _ _ => Raise (MkExn NonException "boom")).

(** ** The validator in the words of the specification *)

(** "A denylisted module name appears as the target of an import-like
    statement": the text is cut into statements (at line ends and
    semicolons) and each statement into words; a statement is import-like
    when its first word is [import] or [from]; its targets are the modules
    named after [import] (aliases introduced by [as] left out), or the one
    named after [from]; a dotted name targets its top-level package. *)
Fixpoint split_on (p : ascii -> bool) (s : string) : list string :=
  match s with
  | EmptyString => [EmptyString]
  | String c rest =>
      if p c then EmptyString :: split_on p rest
      else match split_on p rest with
           | h :: t => String c h :: t
           | [] => [String c EmptyString]
           end
  end.

Definition nonempty (s : string) : bool :=
  match s with EmptyString => false | _ => true end.

Definition is_statement_end (c : ascii) : bool :=
  Ascii.eqb c (ascii_of_nat 10) || Ascii.eqb c ";"%char.

Definition is_word_sep (c : ascii) : bool :=
  Ascii.eqb c " "%char || Ascii.eqb c (ascii_of_nat 9) || Ascii.eqb c ","%char.

Definition statements (code : string) : list string :=
  split_on is_statement_end code.

Definition words (stmt : string) : list string :=
  List.filter nonempty (split_on is_word_sep stmt).

Definition top_package (name : string) : string :=
  List.hd EmptyString (split_on (Ascii.eqb "."%char) name).

Fixpoint import_names (ws : list string) : list string :=
  match ws with
  | [] => []
  | x :: rest =>
      if String.eqb x "as"
      then match rest with
           | [] => []
           | _ :: rest' => import_names rest'
           end
      else x :: import_names rest
  end.

Definition statement_targets (stmt : string) : list string :=
  match words stmt with
  | [] => []
  | kw :: rest =>
      if String.eqb kw "import" then List.map top_package (import_names rest)
      else if String.eqb kw "from" then List.map top_package (List.firstn 1 rest)
      else []
  end.

Definition spec_import_targets (code : string) : list string :=
  List.concat (List.map statement_targets (statements code)).

Definition spec_denylisted_import (code : string) : bool :=
  List.existsb (fun t => List.existsb (String.eqb t) FORBIDDEN_MODULES)
    (spec_import_targets code).

(** from osgeo import gdal *)
Definition osgeo_code : string := "from osgeo import gdal".

(** ** Vocabulary of the statements *)

(** [needle] occurs somewhere in [hay]. *)
Definition occurs_in (needle hay : string) : Prop :=
  exists pre post, hay = pre +:+ needle +:+ post.

(** The three textual conditions [validate_code] tests. *)
Definition import_pattern (code : string) : Prop :=
  exists m, In m FORBIDDEN_MODULES /\
    (occurs_in ("import " +:+ m) code \/ occurs_in ("from " +:+ m) code).

Definition eval_pattern (code : string) : Prop :=
  occurs_in "eval(" code \/ occurs_in "exec(" code.

Definition open_pattern (code : string) : Prop :=
  occurs_in "open(" code \/ occurs_in "file(" code.

Definition import_message (m : string) : string :=
  "Importing module '" +:+ m +:+ "' is not allowed".

(** Every ceiling can be installed. *)
Definition limits_ok (w : world) : Prop :=
  forall r v, In (r, v) RESOURCE_LIMITS -> os_setrlimit w r v v = None.

(** The five [setrlimit] calls of a run in which none fails. *)
Definition limit_events : list event :=
  List.map (fun rv => EvSetLimit (fst rv) (snd rv) (snd rv)) RESOURCE_LIMITS.

(** No event of the trace hands submitted code to the interpreter. *)
Definition code_untouched (tr : list event) : Prop :=
  Forall (fun ev => touches_code ev = false) tr.

(** The [except] clauses of [_execute_code_safely], applied to [e]. *)
Definition handled (w : world) (e : exn) : outcome ExecutionResult :=
  match exc_cls e with
  | SecurityError =>
      Ret (error_result ("Security violation: " +:+ exc_msg e))
  | TimeoutError | OtherException =>
      Ret (error_result_tb (exc_msg e) (format_exc w e))
  | NonException => Raise e
  end.

(** How the worker ends when a step of the [try] body does not return. *)
Definition interrupted {A} (w : world) (o : outcome A)
  : option (outcome ExecutionResult) :=
  match o with
  | Ret _ => None
  | Raise e => Some (handled w e)
  | Stall => Some Stall
  | Hang => Some Hang
  | Killed => Some Killed
  end.

(** The runs of [_execute_code_safely], one constructor per way through
    the function: the trace it leaves and how it ends. *)
Inductive worker_run (w : world) (code : string) (params : gmap string value)
  : list event -> outcome ExecutionResult -> Prop :=
| run_limit_refused tr r v msg :
    In (r, v) RESOURCE_LIMITS ->
    os_setrlimit w r v v = Some msg ->
    code_untouched tr ->
    worker_run w code params tr
      (Ret (error_result_tb msg (format_exc w (MkExn OtherException msg))))
| run_rejected msg :
    limits_ok w ->
    validate_code (set_order w) code = inl msg ->
    worker_run w code params limit_events
      (Ret (error_result ("Security violation: " +:+ msg)))
| run_compile_interrupted o r :
    limits_ok w ->
    validate_code (set_order w) code = inr tt ->
    py_compile w code = o ->
    interrupted w o = Some r ->
    worker_run w code params (limit_events ++ [EvCompile code])%list r
| run_exec_interrupted c o r :
    limits_ok w ->
    validate_code (set_order w) code = inr tt ->
    py_compile w code = Ret c ->
    py_exec w c (update create_safe_globals params) = o ->
    interrupted w o = Some r ->
    worker_run w code params
      (limit_events ++
       [EvCompile code; EvExec c (update create_safe_globals params)])%list r
| run_no_main c g :
    limits_ok w ->
    validate_code (set_order w) code = inr tt ->
    py_compile w code = Ret c ->
    py_exec w c (update create_safe_globals params) = Ret g ->
    g !! "main" = None ->
    worker_run w code params
      (limit_events ++
       [EvCompile code; EvExec c (update create_safe_globals params)])%list
      (Ret (error_result "No main function defined"))
| run_main_interrupted c g main o r :
    limits_ok w ->
    validate_code (set_order w) code = inr tt ->
    py_compile w code = Ret c ->
    py_exec w c (update create_safe_globals params) = Ret g ->
    g !! "main" = Some main ->
    invoke w main params = o ->
    interrupted w o = Some r ->
    worker_run w code params
      (limit_events ++
       [EvCompile code; EvExec c (update create_safe_globals params);
        EvCall main params])%list r
| run_main_returned c g main v :
    limits_ok w ->
    validate_code (set_order w) code = inr tt ->
    py_compile w code = Ret c ->
    py_exec w c (update create_safe_globals params) = Ret g ->
    g !! "main" = Some main ->
    invoke w main params = Ret v ->
    worker_run w code params
      (limit_events ++
       [EvCompile code; EvExec c (update create_safe_globals params);
        EvCall main params])%list
      (Ret (success_result v)).

(** The [except] clauses of [execute_code_in_process], applied to the
    exception [e] the awaited future raised. *)
Definition supervised (w : world) (e : exn) : call_result :=
  match exc_cls e with
  | TimeoutError => Returned (error_result "Execution timeout")
  | SecurityError | OtherException =>
      Returned (error_result_tb (exc_msg e) (format_exc w e))
  | NonException => Propagated e
  end.

(** The [try] / [except] of [execute_code_in_process] around the awaited
    future, as a function of how the worker ended. *)
Definition answer (w : world) (o : outcome ExecutionResult) : call_result :=
  match wait_for w o with
  | Got r => Returned r
  | Raised e => supervised w e
  end.

(** The wire records of section 4.6: a [status] that is [success] or
    [error], [result] only on success, [error] and possibly [traceback]
    only on failure, and no field holding None. *)
Definition response_shape (d : list (string * value)) : Prop :=
  d = [("status", VStr "success")] \/
  (exists v, is_None v = false /\
     d = [("status", VStr "success"); ("result", v)]) \/
  (exists msg, d = [("status", VStr "error"); ("error", VStr msg)]) \/
  (exists msg tb,
     d = [("status", VStr "error"); ("error", VStr msg);
          ("traceback", VStr tb)]).

(** ** Further worlds and vocabulary *)

(** The interpreter raises [e] at the first step of the [try] body that
    does not return: while compiling, while running the unit, or while
    calling the entry point. *)
Definition raised_at (w : world) (code : string)
    (params : gmap string value) (e : exn) : Prop :=
  py_compile w code = Raise e \/
  (exists c,
      py_compile w code = Ret c /\
      py_exec w c (update create_safe_globals params) = Raise e) \/
  (exists c g main,
      py_compile w code = Ret c /\
      py_exec w c (update create_safe_globals params) = Ret g /\
      g !! "main" = Some main /\
      invoke w main params = Raise e).

(** What the [except] clauses of the worker and of the supervisor make of
    an exception raised inside the [try] body of the worker.  An exception
    outside Exception leaves the worker and is pickled for the supervisor;
    when pickling it raises, the supervisor sees that failure instead. *)
Definition reported (w : world) (e : exn) : call_result :=
  match exc_cls e with
  | SecurityError =>
      Returned (error_result ("Security violation: " +:+ exc_msg e))
  | TimeoutError | OtherException =>
      Returned (error_result_tb (exc_msg e) (format_exc w e))
  | NonException =>
      match py_pickle_exc w e with
      | None => Propagated e
      | Some e' => supervised w (sent_instead w e')
      end
  end.

(** The entry point is reached and returns [v]. *)
Definition returned_by_main (w : world) (code : string)
    (params : gmap string value) (v : value) : Prop :=
  exists c g main,
    py_compile w code = Ret c /\
    py_exec w c (update create_safe_globals params) = Ret g /\
    g !! "main" = Some main /\
    invoke w main params = Ret v.

(** The exception [e] comes from the submitted code and reaches the
    supervisor: the code raised it, or pickling what the code raised or
    returned raised it; and [e] itself can be pickled. *)
Definition escapes (w : world) (code : string)
    (params : gmap string value) (e : exn) : Prop :=
  limits_ok w /\
  validate_code (set_order w) code = inr tt /\
  py_pickle_exc w e = None /\
  (raised_at w code params e \/
   (exists e0, raised_at w code params e0 /\ is_Exception e0 = false /\
               py_pickle_exc w e0 = Some e) \/
   (exists v, returned_by_main w code params v /\
              pickle_value w v = Some e)).

(** def main(): return main *)
Definition return_main_code : string := "def main(): return main".

Definition return_main_world : world :=
  snippet_world limits_granted
    (fun g => Ret (<["main" := VFun (Closure 0)]> g))
    (fun _ _ => Ret (VFun (Closure 0))).

(** import json, os / def main(): return os.getcwd() *)
Definition comma_import_code : string :=
  "import json, os" +:+ nl +:+ "def main(): return os.getcwd()".

(** The restricted builtins have no [__import__]: the import statement of
    the unit raises ImportError. *)
Definition import_fails_world : world :=
  snippet_world limits_granted
    (fun _ => Raise (MkExn OtherException "__import__ not found"))
    (fun _ _ => Raise (MkExn OtherException "unsupported call")).

(** A snippet that blocks for ever without using CPU time: its entry
    point waits on an event nobody sets, the class being reached from the
    allowed builtin [type]:

    def main(): return [c for c in type(0).__mro__[-1].__subclasses__()
                        if c.__name__ == 'Event'][0]().wait() *)
Definition wait_code : string :=
  "def main(): return [c for c in type(0).__mro__[-1].__subclasses__() if c.__name__ == 'Event'][0]().wait()".

Definition hang_world : world :=
  snippet_world limits_granted
    (fun g => Ret (<["main" := VFun (Closure 0)]> g))
    (fun _ _ => Hang).

(** A snippet whose entry point returns an object of its own, the
    pickling of which raises TimeoutError:

    def main():
     B = [c for c in type(0).__mro__[-1].__subclasses__()
          if c.__name__ == 'BaseException'][0]
     E = [c for c in B.__subclasses__() if c.__name__ == 'Exception'][0]
     O = [c for c in E.__subclasses__() if c.__name__ == 'OSError'][0]
     T = [c for c in O.__subclasses__() if c.__name__ == 'TimeoutError'][0]
     def r(self): raise T('late')
     return type('X', (), {'__reduce__': r})() *)
Definition pickle_timeout_code : string :=
  "def main():" +:+ nl +:+
  " B = [c for c in type(0).__mro__[-1].__subclasses__() if c.__name__ == 'BaseException'][0]" +:+ nl +:+
  " E = [c for c in B.__subclasses__() if c.__name__ == 'Exception'][0]" +:+ nl +:+
  " O = [c for c in E.__subclasses__() if c.__name__ == 'OSError'][0]" +:+ nl +:+
  " T = [c for c in O.__subclasses__() if c.__name__ == 'TimeoutError'][0]" +:+ nl +:+
  " def r(self): raise T('late')" +:+ nl +:+
  " return type('X', (), {'__reduce__': r})()".

Definition pickle_timeout_world : world :=
  {| set_order := FORBIDDEN_MODULES;
     os_setrlimit := limits_granted;
     py_compile := fun src => Ret (MkCode src);
     py_exec := fun _ g => Ret (<["main" := VFun (Closure 0)]> g);
     py_call := fun _ _ => Ret (VFun (Closure 1));
     format_exc := sample_format_exc;
     py_pickle := fun _ => Some (MkExn TimeoutError "late");
     py_pickle_exc := fun _ => None |}.

(** x = eval('1 + 1') *)
Definition eval_code : string := "x = eval('1 + 1')".

(** def main(): return 1/0 *)
Definition division_code : string := "def main(): return 1/0".

Definition division_world : world :=
  snippet_world limits_granted
    (fun g => Ret (<["main" := VFun (Closure 0)]> g))
    (fun _ _ => Raise (MkExn OtherException "division by zero")).

(** def main(): (newline) while True: pass *)
Definition loop_code : string :=
  "def main():" +:+ nl +:+ " while True: pass".

Definition loop_world : world :=
  snippet_world limits_granted
    (fun g => Ret (<["main" := VFun (Closure 0)]> g))
    (fun _ _ => Stall).

(** ** The client (src/client.py) *)

(** A Python dict with string keys, as the list of its items; a key occurs
    once.  [dict_get k d] is [d.get(k)]. *)
Fixpoint dict_get (k : string) (d : list (string * value)) : option value :=
  match d with
  | [] => None
  | (k', v) :: rest => if String.eqb k k' then Some v else dict_get k rest
  end.

(** The dataclass of the client.  Python does not check the annotations:
    every field holds whatever value the mapping carried. *)
Record ExecutionResponse : Type := MkResponse {
  resp_status : value;
  resp_result : value;
  resp_error : value;
  resp_traceback : value
}.

(** [cls.__annotations__] *)
Definition response_annotations : list string :=
  ["status"; "result"; "error"; "traceback"].

Definition annotated (k : string) : bool :=
  List.existsb (String.eqb k) response_annotations.

(** [cls(<the items of data whose key is an annotation>)]: [status] is
    required, the other fields default to None. *)
Definition from_dict (data : list (string * value)) : exn + ExecutionResponse :=
  let kwargs := List.filter (fun kv => annotated (fst kv)) data in
  match dict_get "status" kwargs with
  | None =>
      inl (MkExn OtherException
             "ExecutionResponse.__init__() missing 1 required positional argument: 'status'")
  | Some st =>
      inr (MkResponse st
             (default VNone (dict_get "result" kwargs))
             (default VNone (dict_get "error" kwargs))
             (default VNone (dict_get "traceback" kwargs)))
  end.

(** The record of the server as the client's dataclass holds it. *)
Definition response_of (r : ExecutionResult) : ExecutionResponse :=
  MkResponse (VStr (status r)) (result r) (opt_str (error r))
    (opt_str (traceback r)).

(** ** The request handler (src/server.py, handle_execute) *)

(** [json.dumps] accepts the value: data only, no function object. *)
Fixpoint json_serializable (v : value) : bool :=
  match v with
  | VList l => List.forallb json_serializable l
  | VDict d => List.forallb (fun kv => json_serializable (snd kv)) d
  | VFun _ => false
  | _ => true
  end.

(** An aiohttp response: the HTTP status and the JSON document of the
    body, as the mapping it encodes. *)
Record response : Type := MkHttp {
  http_status : Z;
  body : list (string * value)
}.

(** The first function object [json.dumps] meets in the value. *)
Fixpoint first_function (v : value) : option callable :=
  match v with
  | VFun c => Some c
  | VList l =>
      (fix go (l : list value) : option callable :=
         match l with
         | [] => None
         | x :: rest =>
             match first_function x with
             | Some c => Some c
             | None => go rest
             end
         end) l
  | VDict d =>
      (fix go (d : list (string * value)) : option callable :=
         match d with
         | [] => None
         | kv :: rest =>
             match first_function (snd kv) with
             | Some c => Some c
             | None => go rest
             end
         end) d
  | _ => None
  end.

(** The builtins of [SAFE_BUILTINS] that are classes. *)
Definition BUILTIN_TYPES : list string :=
  [ "bool"; "bytearray"; "bytes"; "complex"; "dict"; "enumerate"; "filter";
    "float"; "frozenset"; "int"; "list"; "map"; "range"; "reversed"; "set";
    "slice"; "str"; "tuple"; "type"; "zip" ].

(** [type(f).__name__] of a function object. *)
Definition callable_type_name (c : callable) : string :=
  match c with
  | Builtin name =>
      if List.existsb (String.eqb name) BUILTIN_TYPES then "type"
      else "builtin_function_or_method"
  | PrintStub | Closure _ => "function"
  end.

Definition not_serializable_message (data : list (string * value)) : string :=
  match first_function (VDict data) with
  | Some c =>
      "Object of type " +:+ callable_type_name c
      +:+ " is not JSON serializable"
  | None => "Object is not JSON serializable"
  end.

(** [web.json_response(data)]: status 200, or the TypeError of
    [json.dumps]. *)
Definition json_response (data : list (string * value)) : exn + response :=
  if List.forallb (fun kv => json_serializable (snd kv)) data
  then inr (MkHttp 200 data)
  else inl (MkExn OtherException (not_serializable_message data)).

(** The [match data:] statement: the first mapping pattern that fits. *)
Inductive matched : Type :=
| CodeAndParams (code params : value)    (* case {'code': code, 'params': params} *)
| CodeOnly (code : value)                (* case {'code': code} *)
| NoCase.                                (* case _ *)

Definition match_data (data : value) : matched :=
  match data with
  | VDict d =>
      match dict_get "code" d, dict_get "params" d with
      | Some code, Some params => CodeAndParams code params
      | Some code, None => CodeOnly code
      | None, _ => NoCase
      end
  | _ => NoCase
  end.

Section Handler.
Variable w : world.

(** What [execute_code_in_process] does with arguments outside its
    annotations (a [code] that is not a str, [params] that are not a dict)
    is left open. *)
Variable execute_untyped : value -> value -> list event * call_result.

Definition execute_values (code params : value) : list event * call_result :=
  match code, params with
  | VStr s, VDict d => execute_code_in_process w s (list_to_map d)
  | _, _ => execute_untyped code params
  end.

(** [request_json] is how [await request.json()] ends: the parsed document
    or the exception raised.  The result is the response returned, or the
    exception that leaves the handler. *)
Definition handle_execute (request_json : exn + value)
  : list event * (exn + response) :=
  let '(tr, attempt) :=
    match request_json with
    | inl e => ([], inl e)
    | inr data =>
        let '(tr, res) :=
          match match_data data with
          | CodeAndParams code params => execute_values code params
          | CodeOnly code => execute_values code (VDict [])
          | NoCase => ([], Returned (error_result "Invalid request format"))
          end in
        match res with
        | Returned r => (tr, json_response (to_dict r))
        | Propagated e => (tr, inl e)
        end
    end in
  match attempt with
  | inr resp => (tr, inr resp)
  | inl e =>
      if is_Exception e
      then
        let tb := format_exc w e in
        ((tr ++ [EvLogError ("Request handling error: " +:+ exc_msg e
                             +:+ nl +:+ tb)])%list,
         json_response (to_dict (error_result_tb (exc_msg e) tb)))
      else (tr, inl e)
  end.

End Handler.

(** A request body with a str [code] and, when present, dict [params]. *)
Definition typed_body (d : list (string * value)) : Prop :=
  (exists s, dict_get "code" d = Some (VStr s)) /\
  (dict_get "params" d = None \/
   exists p, dict_get "params" d = Some (VDict p)).

(** A stand-in for the behaviour left open. *)
Definition no_untyped : value -> value -> list event * call_result :=
  fun _ _ => ([], Returned (error_result "unsupported arguments")).

(** {"code": "def main(x, y): return {'sum': x+y}",
     "params": {"x": 10, "y": 20}} *)
Definition sum_body : list (string * value) :=
  [("code", VStr sum_code);
   ("params", VDict [("x", VInt 10); ("y", VInt 20)])].

(** {"code": "def main(): return None"} *)
Definition none_body : list (string * value) := [("code", VStr none_code)].

(** ** Metrics (src/metrics.py) *)

Section Metrics.

(** The type of the float readings (durations, gauge values). *)
Variable float : Type.

(** The metric objects the constructor creates.  A labelled counter is the
    map from label values to counts (an absent child counts 0); the
    histogram is the list of the observed values, latest first. *)
Record metrics : Type := MkMetrics {
  requests_total : gmap (string * string) nat;   (* (status, endpoint) *)
  requests_in_progress : Z;
  execution_time : list float;
  memory_usage : option Z;       (* None: never set *)
  cpu_usage : option float;      (* None: never set *)
  error_total : gmap string nat  (* error_type *)
}.

(** [counter.labels(k).inc()] *)
Definition counter_inc {K} `{Countable K} (k : K) (c : gmap K nat)
  : gmap K nat :=
  <[k := S (default 0%nat (c !! k))]> c.

Definition count (k : string * string) (c : gmap (string * string) nat) : nat :=
  default 0%nat (c !! k).

Definition gauge_inc (m : metrics) : metrics :=
  MkMetrics (requests_total m) (requests_in_progress m + 1)
    (execution_time m) (memory_usage m) (cpu_usage m) (error_total m).

Definition gauge_dec (m : metrics) : metrics :=
  MkMetrics (requests_total m) (requests_in_progress m - 1)
    (execution_time m) (memory_usage m) (cpu_usage m) (error_total m).

Definition observe (x : float) (m : metrics) : metrics :=
  MkMetrics (requests_total m) (requests_in_progress m)
    (x :: execution_time m) (memory_usage m) (cpu_usage m) (error_total m).

Definition count_request (k : string * string) (m : metrics) : metrics :=
  MkMetrics (counter_inc k (requests_total m)) (requests_in_progress m)
    (execution_time m) (memory_usage m) (cpu_usage m) (error_total m).

Definition count_error (k : string) (m : metrics) : metrics :=
  MkMetrics (requests_total m) (requests_in_progress m)
    (execution_time m) (memory_usage m) (cpu_usage m)
    (counter_inc k (error_total m)).

(** [type(e).__name__], which the record [exn] does not carry. *)
Variable type_name_of : exn -> string.

(** The wrapper [track_request(endpoint)] puts around [func].
    [status_of r] is [str(r.status)] when the result has an attribute
    [status]; [func] may itself update the metrics; [elapsed] is
    [time.time() - start_time] as read in the [finally] clause. *)
Definition track_request {R : Type} (endpoint : string)
    (status_of : R -> option string)
    (func : metrics -> metrics * (exn + R))
    (elapsed : float) (m : metrics) : metrics * (exn + R) :=
  let '(m', out) := func (gauge_inc m) in
  let counted :=
    match out with
    | inr r => count_request (default "success" (status_of r), endpoint) m'
    | inl e =>
        if is_Exception e then count_error (type_name_of e) m' else m'
    end in
  (gauge_dec (observe elapsed counted), out).

(** The decorated handler of the route [/execute]: the response object has
    the attribute [status], the HTTP status. *)
Definition tracked_handle_execute (w : world)
    (execute_untyped : value -> value -> list event * call_result)
    (request_json : exn + value) (elapsed : float) (m : metrics)
  : metrics * (exn + response) :=
  track_request "/execute"
    (fun resp => Some (pretty (http_status resp)))
    (fun m' => (m', snd (handle_execute w execute_untyped request_json)))
    elapsed m.

End Metrics.

Arguments requests_total {float} _.
Arguments requests_in_progress {float} _.
Arguments execution_time {float} _.
Arguments memory_usage {float} _.
Arguments cpu_usage {float} _.
Arguments error_total {float} _.
Arguments MkMetrics {float} _ _ _ _ _ _.
Arguments gauge_inc {float} _.
Arguments gauge_dec {float} _.
Arguments observe {float} _ _.
Arguments count_request {float} _ _.
Arguments count_error {float} _ _.
Arguments track_request {float} _ {R} _ _ _ _ _.
Arguments tracked_handle_execute {float} _ _ _ _ _ _.

(** The metrics right after the constructor ran. *)
Definition fresh_metrics {float : Type} : metrics float :=
  MkMetrics ∅ 0 [] None None ∅.

(** Unfolds the plumbing of [proc]. *)
Ltac unfold_proc :=
  unfold try_except, mbind, proc_bind, mret, proc_ret, emit, lift, ret, raise.

(** * Properties *)

(** ** Substring tests *)

Lemma append_cons (c : ascii) (a b : string) :
  String c a +:+ b = String c (a +:+ b).
Proof. reflexivity. Qed.

Lemma append_nil (b : string) : "" +:+ b = b.
Proof. reflexivity. Qed.

Lemma prefix_app (n h : string) :
  String.prefix n h = true <-> exists post, h = n +:+ post.
Proof.
  revert h. induction n as [|c n IH]; intros h.
  - split; [intros _; by exists h | by destruct h].
  - destruct h as [|d h]; simpl.
    + split; [done | intros [post Hp]; discriminate].
    + destruct (Ascii.ascii_dec c d) as [->|Hne].
      * rewrite IH. split; intros [post Hp]; exists post;
          rewrite append_cons in *; congruence.
      * split; [done | intros [post Hp]; rewrite append_cons in Hp; congruence].
Qed.

Lemma contains_empty (n : string) : contains n "" = String.prefix n "".
Proof.
  change (contains n "") with (if String.prefix n "" then true else false).
  by destruct (String.prefix n "").
Qed.

Lemma contains_cons (n : string) (c : ascii) (h : string) :
  contains n (String c h) =
  if String.prefix n (String c h) then true else contains n h.
Proof. reflexivity. Qed.

Lemma contains_occurs (n h : string) :
  contains n h = true <-> occurs_in n h.
Proof.
  induction h as [|c h IH].
  - rewrite contains_empty, prefix_app. split.
    + intros [post Hp]. by exists "", post.
    + intros [pre [post H]]. exists post.
      destruct pre; [by rewrite append_nil in H | discriminate].
  - rewrite contains_cons.
    destruct (String.prefix n (String c h)) eqn:Hp.
    + split; [intros _ | done].
      apply prefix_app in Hp as [post Hp]. by exists "", post.
    + rewrite IH. split.
      * intros [pre [post H]]. exists (String c pre), post.
        rewrite append_cons. by rewrite H.
      * intros [pre [post H]]. destruct pre as [|d pre].
        -- rewrite append_nil in H.
           assert (String.prefix n (String c h) = true)
             by (apply prefix_app; eauto).
           congruence.
        -- rewrite append_cons in H. injection H as _ H. by exists pre, post.
Qed.

Lemma contains_false (n h : string) :
  contains n h = false <-> ~ occurs_in n h.
Proof.
  rewrite <- contains_occurs. by destruct (contains n h).
Qed.

(** ** validate_code *)

Lemma forbidden_import_some order code m :
  forbidden_import order code = Some m ->
  In m order /\ import_hit code m = true.
Proof. unfold forbidden_import. apply find_some. Qed.

Lemma forbidden_import_none order code :
  forbidden_import order code = None <->
  forall m, In m order -> import_hit code m = false.
Proof.
  unfold forbidden_import. split.
  - intros H m Hm. by eapply find_none in H.
  - intros H. induction order as [|x xs IH]; simpl; [done|].
    rewrite (H x) by (by left). apply IH. intros m Hm. apply H. by right.
Qed.

Lemma forbidden_import_perm order order' code :
  Permutation order order' ->
  forbidden_import order code = None <-> forbidden_import order' code = None.
Proof.
  intros HP. rewrite !forbidden_import_none.
  split; intros H m Hm; apply H.
  - eapply Permutation_in; [symmetry|]; eauto.
  - eapply Permutation_in; eauto.
Qed.

Lemma import_hit_occurs code m :
  import_hit code m = true <->
  occurs_in ("import " +:+ m) code \/ occurs_in ("from " +:+ m) code.
Proof.
  unfold import_hit. rewrite orb_true_iff. by rewrite !contains_occurs.
Qed.

Lemma forbidden_import_none_pattern order code :
  Permutation order FORBIDDEN_MODULES ->
  forbidden_import order code = None <-> ~ import_pattern code.
Proof.
  intros HP. rewrite (forbidden_import_perm _ _ code HP).
  rewrite forbidden_import_none. unfold import_pattern. split.
  - intros H (m & Hm & Hocc). apply import_hit_occurs in Hocc.
    rewrite (H m Hm) in Hocc. discriminate.
  - intros H m Hm. destruct (import_hit code m) eqn:Hhit; [|done].
    exfalso. apply H. exists m. split; [done|]. by apply import_hit_occurs.
Qed.

Lemma eval_test_pattern code :
  contains "eval(" code || contains "exec(" code = true <-> eval_pattern code.
Proof. unfold eval_pattern. rewrite orb_true_iff. by rewrite !contains_occurs. Qed.

Lemma open_test_pattern code :
  contains "open(" code || contains "file(" code = true <-> open_pattern code.
Proof. unfold open_pattern. rewrite orb_true_iff. by rewrite !contains_occurs. Qed.

(** A text with an import pattern is rejected with a message that names a
    denylisted module whose pattern occurs in it. *)
Lemma validate_code_import order code :
  Permutation order FORBIDDEN_MODULES ->
  import_pattern code ->
  exists m, In m FORBIDDEN_MODULES /\
    (occurs_in ("import " +:+ m) code \/ occurs_in ("from " +:+ m) code) /\
    validate_code order code = inl (import_message m).
Proof.
  intros HP Himp. unfold validate_code.
  destruct (forbidden_import order code) as [m|] eqn:Hf.
  - apply forbidden_import_some in Hf as [Hin Hhit].
    exists m. split_and!; [| by apply import_hit_occurs | done].
    eapply Permutation_in; eauto.
  - by apply (forbidden_import_none_pattern _ _ HP) in Hf.
Qed.

(** C7, as amended: the three checks of [validate_code] are substring tests
    on the raw text, made in this order: the text is rejected when
    [import M] or [from M] occurs in it for a denylisted [M] (the message
    names such an [M]); otherwise when [eval(] or [exec(] occurs in it;
    otherwise when [open(] or [file(] occurs in it; and it is accepted
    exactly when none of these substrings occurs. *)
Theorem validate_code_substring_tests (order : list string) (code : string) :
  Permutation order FORBIDDEN_MODULES ->
  (import_pattern code ->
     exists m, In m FORBIDDEN_MODULES /\
       (occurs_in ("import " +:+ m) code \/ occurs_in ("from " +:+ m) code) /\
       validate_code order code = inl (import_message m)) /\
  (~ import_pattern code -> eval_pattern code ->
     validate_code order code = inl "Using eval() or exec() is not allowed") /\
  (~ import_pattern code -> ~ eval_pattern code -> open_pattern code ->
     validate_code order code = inl "File operations are not allowed") /\
  (validate_code order code = inr tt <->
     ~ import_pattern code /\ ~ eval_pattern code /\ ~ open_pattern code).
Proof.
  intros HP. split_and!.
  - by apply validate_code_import.
  - intros Hi He. apply (forbidden_import_none_pattern _ _ HP) in Hi.
    apply eval_test_pattern in He. unfold validate_code. by rewrite Hi, He.
  - intros Hi He Ho. apply (forbidden_import_none_pattern _ _ HP) in Hi.
    apply open_test_pattern in Ho. rewrite <- eval_test_pattern in He.
    apply not_true_is_false in He.
    unfold validate_code. by rewrite Hi, He, Ho.
  - rewrite <- (forbidden_import_none_pattern _ _ HP).
    rewrite <- eval_test_pattern, <- open_test_pattern.
    unfold validate_code.
    destruct (forbidden_import order code);
      destruct (contains "eval(" code || contains "exec(" code);
      destruct (contains "open(" code || contains "file(" code);
      intuition (discriminate || congruence).
Qed.

Lemma validate_code_substring_tests_witness :
  Permutation FORBIDDEN_MODULES FORBIDDEN_MODULES /\
  (validate_code FORBIDDEN_MODULES sum_code = inr tt <->
     ~ import_pattern sum_code /\ ~ eval_pattern sum_code /\
     ~ open_pattern sum_code).
Proof.
  split; [apply Permutation_refl|].
  apply (validate_code_substring_tests FORBIDDEN_MODULES sum_code).
  apply Permutation_refl.
Defined.

(** C7, as stated, fails: in [from osgeo import gdal] the only import
    target is [osgeo], which is not denylisted, yet the first check rejects
    the text because [from os] is a substring of it. *)
Lemma import_check_rejects_other_module :
  spec_import_targets osgeo_code = ["osgeo"] /\
  spec_denylisted_import osgeo_code = false /\
  forbidden_import FORBIDDEN_MODULES osgeo_code = Some "os" /\
  validate_code FORBIDDEN_MODULES osgeo_code =
    inl "Importing module 'os' is not allowed".
Proof. by vm_compute. Qed.

(** ** The worker *)

Lemma set_resource_limits_cases (w : world) :
  (limits_ok w /\ set_resource_limits w [] = (limit_events, Ret tt)) \/
  (exists tr r v msg,
      In (r, v) RESOURCE_LIMITS /\ os_setrlimit w r v v = Some msg /\
      code_untouched tr /\
      set_resource_limits w [] = (tr, Raise (MkExn OtherException msg))).
Proof.
  unfold set_resource_limits, setrlimit. unfold_proc. simpl.
  destruct (os_setrlimit w RLIMIT_CPU CPU_TIME CPU_TIME) as [m|] eqn:H1; simpl;
    [right; eexists _, _, _, m; split_and!; [| exact H1 | | reflexivity];
     [simpl; tauto | repeat constructor] |].
  destruct (os_setrlimit w RLIMIT_AS MEMORY MEMORY) as [m|] eqn:H2; simpl;
    [right; eexists _, _, _, m; split_and!; [| exact H2 | | reflexivity];
     [simpl; tauto | repeat constructor] |].
  destruct (os_setrlimit w RLIMIT_FSIZE FILE_SIZE FILE_SIZE) as [m|] eqn:H3; simpl;
    [right; eexists _, _, _, m; split_and!; [| exact H3 | | reflexivity];
     [simpl; tauto | repeat constructor] |].
  destruct (os_setrlimit w RLIMIT_NPROC PROCESSES PROCESSES) as [m|] eqn:H4; simpl;
    [right; eexists _, _, _, m; split_and!; [| exact H4 | | reflexivity];
     [simpl; tauto | repeat constructor] |].
  destruct (os_setrlimit w RLIMIT_NOFILE OPEN_FILES OPEN_FILES) as [m|] eqn:H5; simpl;
    [right; eexists _, _, _, m; split_and!; [| exact H5 | | reflexivity];
     [simpl; tauto | repeat constructor] |].
  left. split; [| reflexivity].
  intros r v Hin. simpl in Hin.
  repeat destruct Hin as [Hin|Hin]; try done; by simplify_eq.
Qed.

(** Every run of the worker function is one of the runs of [worker_run]. *)
Lemma worker_run_complete (w : world) code params tr o :
  _execute_code_safely w code params [] = (tr, o) ->
  worker_run w code params tr o.
Proof.
  unfold _execute_code_safely, run_validate, call_value. unfold_proc.
  destruct (set_resource_limits_cases w)
    as [[Hok ->]|(tr' & r & v & msg & Hin & Hos & Hun & ->)]; simpl.
  2:{ intros [= <- <-]. by eapply run_limit_refused. }
  destruct (validate_code (set_order w) code) as [msg|[]] eqn:Hv; simpl.
  { intros [= <- <-]. by apply run_rejected. }
  destruct (py_compile w code) as [c|[cls m]| | |] eqn:Hc; simpl.
  2: destruct cls; simpl.
  2-8: intros [= <- <-];
       (eapply (run_compile_interrupted w code params); [done..|]);
       try rewrite Hc; reflexivity.
  destruct (py_exec w c (update create_safe_globals params))
    as [g|[cls m]| | |] eqn:He; simpl.
  2: destruct cls; simpl.
  2-8: intros [= <- <-];
       (eapply (run_exec_interrupted w code params); [done..|]);
       try rewrite He; reflexivity.
  destruct (g !! "main") as [main|] eqn:Hm; simpl.
  2:{ intros [= <- <-]. by eapply run_no_main. }
  destruct (invoke w main params) as [v|[cls m]| | |] eqn:Hi; simpl.
  { intros [= <- <-]. by eapply run_main_returned. }
  1: destruct cls; simpl.
  all: intros [= <- <-];
       (eapply (run_main_interrupted w code params); [done..|]);
       try rewrite Hi; reflexivity.
Qed.

(** The supervisor returns the trace of the worker and the [answer] to how
    it ended. *)
Lemma execute_code_in_process_answer (w : world) code params :
  execute_code_in_process w code params =
  (fst (_execute_code_safely w code params []),
   answer w (snd (_execute_code_safely w code params []))).
Proof.
  unfold execute_code_in_process.
  by destruct (_execute_code_safely w code params []) as [tr o].
Qed.

(** What a request does: some run of the worker, answered by the
    supervisor. *)
Lemma execute_code_in_process_run (w : world) code params tr res :
  execute_code_in_process w code params = (tr, res) ->
  exists o, worker_run w code params tr o /\ res = answer w o.
Proof.
  rewrite execute_code_in_process_answer.
  destruct (_execute_code_safely w code params []) as [tr' o] eqn:Hrun.
  intros [= <- <-]. exists o. split; [|done]. by apply worker_run_complete.
Qed.

Lemma limits_ok_refused (w : world) r v msg :
  limits_ok w -> In (r, v) RESOURCE_LIMITS ->
  os_setrlimit w r v v = Some msg -> False.
Proof. intros Hok Hin Hos. rewrite (Hok r v Hin) in Hos. discriminate. Qed.

Lemma limits_granted_ok (w : world) :
  os_setrlimit w = limits_granted -> limits_ok w.
Proof. intros H r v _. by rewrite H. Qed.

Lemma code_untouched_limit_events : code_untouched limit_events.
Proof. repeat constructor. Qed.

Lemma code_untouched_not_in (tr : list event) (ev : event) :
  code_untouched tr -> touches_code ev = true -> ~ In ev tr.
Proof.
  intros Hun Hev Hin. unfold code_untouched in Hun.
  rewrite List.Forall_forall in Hun. specialize (Hun ev Hin). congruence.
Qed.

(** What the supervisor makes of the exception the future raised. *)
Lemma supervised_returned (w : world) (e : exn) (r : ExecutionResult) :
  supervised w e = Returned r ->
  (r = error_result "Execution timeout" /\ exc_cls e = TimeoutError) \/
  (r = error_result_tb (exc_msg e) (format_exc w e) /\
   is_Exception e = true).
Proof.
  unfold supervised, is_Exception. destruct e as [cls m].
  destruct cls; simpl; intros [= <-]; auto.
Qed.

Lemma supervised_propagated (w : world) (e e' : exn) :
  supervised w e = Propagated e' -> e' = e /\ is_Exception e = false.
Proof.
  unfold supervised, is_Exception. destruct e as [cls m].
  destruct cls; simpl; intros [= <-]; auto.
Qed.

Lemma sent_instead_cases (w : world) (e : exn) :
  (sent_instead w e = e /\ py_pickle_exc w e = None) \/
  sent_instead w e = BrokenProcessPool.
Proof. unfold sent_instead. destruct (py_pickle_exc w e); auto. Qed.

(** A record whose result is data crosses the process boundary. *)
Lemma answer_ret_data (w : world) (r : ExecutionResult) :
  pickled_by_name (result r) = true -> answer w (Ret r) = Returned r.
Proof.
  intros Hd. unfold answer, wait_for, pickle_value. by rewrite Hd.
Qed.

(** The records the supervisor returns: the worker's own, or one of its
    two error records. *)
Lemma answer_returned (w : world) (o : outcome ExecutionResult)
    (r : ExecutionResult) :
  answer w o = Returned r ->
  (o = Ret r /\ pickle_value w (result r) = None) \/
  (r = error_result "Execution timeout" /\
   (o = Stall \/ o = Hang \/
    (exists e, pickling_failure w o = Some e /\
               exc_cls (sent_instead w e) = TimeoutError) \/
    (exists e, o = Raise e /\ is_Exception e = true))) \/
  (exists msg tb, r = error_result_tb msg tb).
Proof.
  unfold answer, wait_for, pickling_failure.
  destruct o as [r0|e| | |].
  - destruct (pickle_value w (result r0)) as [e|] eqn:Hp.
    + intros H. apply supervised_returned in H as [[-> Hc]|[-> _]];
        [|right; right; by eexists _, _].
      right; left. split; [done|]. right; right; left. by exists e.
    + intros [= ->]. by left.
  - destruct (py_pickle_exc w e) as [e'|] eqn:Hp.
    + intros H. apply supervised_returned in H as [[-> Hc]|[-> _]];
        [|right; right; by eexists _, _].
      right; left. split; [done|]. right; right; left. by exists e'.
    + intros H. apply supervised_returned in H as [[-> Hc]|[-> _]];
        [|right; right; by eexists _, _].
      right; left. split; [done|]. right; right; right. exists e.
      split; [done|]. unfold is_Exception. by rewrite Hc.
  - intros [= <-]. right; left. split; [done|]. by left.
  - intros [= <-]. right; left. split; [done|]. right; by left.
  - intros [= <-]. right; right. by eexists _, _.
Qed.

(** The exceptions the supervisor lets through. *)
Lemma answer_propagated (w : world) (o : outcome ExecutionResult) (e : exn) :
  answer w o = Propagated e ->
  is_Exception e = false /\ py_pickle_exc w e = None /\
  (o = Raise e \/
   (exists e0, o = Raise e0 /\ py_pickle_exc w e0 = Some e) \/
   (exists r, o = Ret r /\ pickle_value w (result r) = Some e)).
Proof.
  assert (forall e1, supervised w (sent_instead w e1) = Propagated e ->
                     e1 = e /\ is_Exception e = false /\
                     py_pickle_exc w e = None) as Hsent.
  { intros e1 H. apply supervised_propagated in H as [-> Hne].
    destruct (sent_instead_cases w e1) as [[Heq Hp]|Heq];
      rewrite Heq in *; [by rewrite Hp|discriminate]. }
  unfold answer, wait_for. destruct o as [r0|e0| | |]; try discriminate.
  - destruct (pickle_value w (result r0)) as [e1|] eqn:Hp; [|discriminate].
    intros H. apply Hsent in H as (-> & Hne & Hpe).
    split_and!; [done..|]. right; right. by exists r0.
  - destruct (py_pickle_exc w e0) as [e1|] eqn:Hp.
    + intros H. apply Hsent in H as (-> & Hne & Hpe).
      split_and!; [done..|]. right; left. by exists e0.
    + intros H. apply supervised_propagated in H as [-> Hne].
      split_and!; [done..|]. by left.
Qed.

Lemma interrupted_not_success {A} (w : world) (o : outcome A) r v :
  interrupted w o = Some r -> o <> Ret v.
Proof. by destruct o. Qed.

(** In a request whose trace shows the call of the entry point, every
    earlier step succeeded and the call was made with [params]. *)
Lemma call_event_run (w : world) code params tr o main kwargs :
  worker_run w code params tr o ->
  In (EvCall main kwargs) tr ->
  kwargs = params /\
  (exists c g,
      py_compile w code = Ret c /\
      py_exec w c (update create_safe_globals params) = Ret g /\
      g !! "main" = Some main) /\
  (forall v, invoke w main kwargs = Ret v -> o = Ret (success_result v)).
Proof.
  intros Hrun Hin.
  destruct Hrun as [tr r v msg Hr Hos Hun | msg Hok Hv | o r Hok Hv Hc Hi
                    | c o r Hok Hv Hc He Hi | c g Hok Hv Hc He Hm
                    | c g main' o r Hok Hv Hc He Hm Hcall Hi
                    | c g main' v Hok Hv Hc He Hm Hcall].
  - by apply (code_untouched_not_in _ _ Hun) in Hin.
  - by apply (code_untouched_not_in _ _ code_untouched_limit_events) in Hin.
  - simpl in Hin. intuition discriminate.
  - simpl in Hin. intuition discriminate.
  - simpl in Hin. intuition discriminate.
  - simpl in Hin.
    assert (main' = main /\ params = kwargs) as [-> ->]
      by (intuition (try discriminate); congruence).
    split_and!; [done | by exists c, g |].
    intros v Hv'. subst o. by rewrite Hv' in Hi.
  - simpl in Hin.
    assert (main' = main /\ params = kwargs) as [-> ->]
      by (intuition (try discriminate); congruence).
    split_and!; [done | by exists c, g |].
    intros v' Hv'. congruence.
Qed.

(** The way to the entry point: with the ceilings installed, a text that
    passes validation, compiles and runs, and leaves [main] bound, has its
    [main] called with [params]; when the call returns [v] the worker
    returns the success record of [v]. *)
Lemma worker_run_entry_point
    (w : world) (code : string) (params : gmap string value)
    (c : code_obj) (g : gmap string value) (main v : value)
    (tr : list event) (o : outcome ExecutionResult) :
  limits_ok w ->
  validate_code (set_order w) code = inr tt ->
  py_compile w code = Ret c ->
  py_exec w c (update create_safe_globals params) = Ret g ->
  g !! "main" = Some main ->
  invoke w main params = Ret v ->
  worker_run w code params tr o ->
  tr = (limit_events ++
        [EvCompile code; EvExec c (update create_safe_globals params);
         EvCall main params])%list /\
  o = Ret (success_result v).
Proof.
  intros Hok Hv Hc He Hm Hcall Hrun.
  destruct Hrun as [tr r v' msg Hr Hos Hun | msg _ Hv' | o r _ _ Hc' Hi
                    | c' o r _ _ Hc' He' Hi | c' g' _ _ Hc' He' Hm'
                    | c' g' main' o r _ _ Hc' He' Hm' Hcall' Hi
                    | c' g' main' v' _ _ Hc' He' Hm' Hcall'].
  - destruct (limits_ok_refused _ _ _ _ Hok Hr Hos).
  - congruence.
  - subst o. rewrite Hc in Hi. discriminate.
  - assert (c' = c) as -> by congruence.
    subst o. rewrite He in Hi. discriminate.
  - assert (c' = c) as -> by congruence. congruence.
  - assert (c' = c) as -> by congruence.
    assert (g' = g) as -> by congruence.
    assert (main' = main) as -> by congruence.
    subst o. rewrite Hcall in Hi. discriminate.
  - assert (c' = c) as -> by congruence.
    assert (g' = g) as -> by congruence.
    assert (main' = main) as -> by congruence.
    by assert (v' = v) as -> by congruence.
Qed.




(** C9: in every request in which the entry point is called and returns
    None, the result is a success record that marshals to exactly
    [{"status": "success"}]: the [result] field is omitted. *)
Theorem none_return_marshals_to_bare_success
    (w : world) (code : string) (params : gmap string value)
    (tr : list event) (res : call_result)
    (main : value) (kwargs : gmap string value) :
  execute_code_in_process w code params = (tr, res) ->
  In (EvCall main kwargs) tr ->
  invoke w main kwargs = Ret VNone ->
  exists r, res = Returned r /\ status r = "success" /\
            to_dict r = [("status", VStr "success")].
Proof.
  intros Hreq Hin Hret.
  apply execute_code_in_process_run in Hreq as (o & Hrun & ->).
  destruct (call_event_run _ _ _ _ _ _ _ Hrun Hin) as (_ & _ & Hres).
  rewrite (Hres VNone Hret). by exists (success_result VNone).
Qed.

Lemma none_return_marshals_to_bare_success_witness :
  exists r,
    snd (execute_code_in_process none_world none_code ∅) = Returned r /\
    status r = "success" /\
    to_dict r = [("status", VStr "success")].
Proof.
  apply (none_return_marshals_to_bare_success none_world none_code ∅
           (fst (execute_code_in_process none_world none_code ∅))
           (snd (execute_code_in_process none_world none_code ∅))
           (VFun (Closure 0)) ∅).
  - by vm_compute.
  - vm_compute. do 7 right. by left.
  - by vm_compute.
Defined.



(** C4: when [setrlimit] refuses one of the five ceilings, the request ends
    in the record with status [error], no result, the message of the first
    refusal and its traceback, and nothing is compiled, executed or
    invoked. *)
Theorem limit_failure_is_fatal
    (w : world) (code : string) (params : gmap string value)
    (r : rlimit) (v : Z) (msg : string) :
  In (r, v) RESOURCE_LIMITS ->
  os_setrlimit w r v v = Some msg ->
  exists tr r' v' msg',
    In (r', v') RESOURCE_LIMITS /\
    os_setrlimit w r' v' v' = Some msg' /\
    execute_code_in_process w code params =
      (tr, Returned (MkResult "error" VNone (Some msg')
                       (Some (format_exc w (MkExn OtherException msg'))))) /\
    code_untouched tr.
Proof.
  intros Hin Hos.
  destruct (execute_code_in_process w code params) as [tr res] eqn:Hreq.
  apply execute_code_in_process_run in Hreq as (o & Hrun & ->).
  destruct Hrun as [tr r' v' msg' Hr' Hos' Hun | msg' Hok | ? ? Hok | ? ? ? Hok
                    | ? ? Hok | ? ? ? ? ? Hok | ? ? ? ? Hok];
    try (by destruct (limits_ok_refused _ _ _ _ Hok Hin Hos)).
  by exists tr, r', v', msg'.
Qed.

Lemma limit_failure_is_fatal_witness :
  In (RLIMIT_AS, MEMORY) RESOURCE_LIMITS /\
  exists tr r' v' msg',
    In (r', v') RESOURCE_LIMITS /\
    os_setrlimit refused_world r' v' v' = Some msg' /\
    execute_code_in_process refused_world sum_code sum_params =
      (tr, Returned (MkResult "error" VNone (Some msg')
                       (Some (format_exc refused_world
                                (MkExn OtherException msg'))))) /\
    code_untouched tr.
Proof.
  assert (In (RLIMIT_AS, MEMORY) RESOURCE_LIMITS) as Hin
    by (simpl; right; by left).
  split; [exact Hin|].
  apply (limit_failure_is_fatal refused_world sum_code sum_params
           RLIMIT_AS MEMORY "not allowed to raise maximum limit" Hin).
  reflexivity.
Defined.

(** A text in which none of the tested substrings occurs is accepted. *)
Lemma validate_code_accepts (order : list string) (code : string) :
  Permutation order FORBIDDEN_MODULES ->
  ~ import_pattern code -> ~ eval_pattern code -> ~ open_pattern code ->
  validate_code order code = inr tt.
Proof.
  intros HP Hi He Ho.
  apply (forbidden_import_none_pattern _ _ HP) in Hi.
  rewrite <- eval_test_pattern in He. apply not_true_is_false in He.
  rewrite <- open_test_pattern in Ho. apply not_true_is_false in Ho.
  unfold validate_code. by rewrite Hi, He, Ho.
Qed.

(** With the ceilings installed, an accepted text is handed to [compile]
    right after the five [setrlimit] calls. *)
Lemma worker_run_accepted (w : world) code params tr o :
  limits_ok w ->
  validate_code (set_order w) code = inr tt ->
  worker_run w code params tr o ->
  exists rest, tr = (limit_events ++ EvCompile code :: rest)%list.
Proof.
  intros Hok Hv Hrun.
  destruct Hrun as [tr r v msg Hr Hos Hun | msg _ Hv' | | | | |];
    try by eexists.
  - destruct (limits_ok_refused _ _ _ _ Hok Hr Hos).
  - congruence.
Qed.

(** C3, as amended: when the five ceilings have been installed, a text in
    which [import M] or [from M] occurs as a substring for a denylisted
    [M] ends in the security-violation record (status [error], no result,
    no traceback) whose message names such an [M], and the trace holds the
    five [setrlimit] calls only: nothing is compiled, executed or invoked.
    A text in which none of the tested substrings occurs is not rejected,
    however it imports: it is handed to [compile]. *)
Theorem denylisted_import_is_rejected
    (w : world) (code : string) (params : gmap string value) :
  world_ok w ->
  limits_ok w ->
  (import_pattern code ->
   exists m,
     In m FORBIDDEN_MODULES /\
     (occurs_in ("import " +:+ m) code \/ occurs_in ("from " +:+ m) code) /\
     execute_code_in_process w code params =
       (limit_events,
        Returned (MkResult "error" VNone
                    (Some ("Security violation: " +:+ import_message m))
                    None)) /\
     code_untouched limit_events) /\
  (~ import_pattern code -> ~ eval_pattern code -> ~ open_pattern code ->
   exists rest,
     fst (execute_code_in_process w code params) =
       (limit_events ++ EvCompile code :: rest)%list).
Proof.
  intros Hw Hok. split.
  - intros Himp.
    destruct (validate_code_import _ _ Hw Himp) as (m & Hm & Hocc & Hval).
    exists m. split_and!; [done.. | | apply code_untouched_limit_events].
    destruct (execute_code_in_process w code params) as [tr res] eqn:Hreq.
    apply execute_code_in_process_run in Hreq as (o & Hrun & ->).
    destruct Hrun as [tr r v msg Hr Hos Hun | msg' _ Hv | | | | |];
      try congruence.
    + destruct (limits_ok_refused _ _ _ _ Hok Hr Hos).
    + rewrite Hval in Hv. by injection Hv as <-.
  - intros Hi He Ho.
    pose proof (validate_code_accepts _ _ Hw Hi He Ho) as Hval.
    destruct (execute_code_in_process w code params) as [tr res] eqn:Hreq.
    apply execute_code_in_process_run in Hreq as (o & Hrun & _).
    by apply (worker_run_accepted w code params tr o).
Qed.

Lemma os_code_import_pattern : import_pattern os_code.
Proof.
  exists "os". split; [by left|]. left. apply contains_occurs. by vm_compute.
Qed.

(** Scenario 2 of the specification. *)
Lemma denylisted_import_is_rejected_witness :
  exists m,
    In m FORBIDDEN_MODULES /\
    (occurs_in ("import " +:+ m) os_code \/
     occurs_in ("from " +:+ m) os_code) /\
    execute_code_in_process granted_world os_code ∅ =
      (limit_events,
       Returned (MkResult "error" VNone
                   (Some ("Security violation: " +:+ import_message m))
                   None)) /\
    code_untouched limit_events.
Proof.
  destruct (denylisted_import_is_rejected granted_world os_code ∅
              (Permutation_refl _)
              (limits_granted_ok granted_world eq_refl))
    as [Hrejected _].
  apply Hrejected, os_code_import_pattern.
Defined.

(** C3, as stated, fails.  On a host that grants every ceiling, the text
    [import json, os] imports the denylisted module [os], but neither
    [import os] nor [from os] is a substring of it: [validate_code]
    accepts it, the unit is compiled and executed, and the request ends in
    the error record of the failing import, not in a security violation.
    And on a host that refuses the address-space ceiling, the text of
    scenario 2 ends in the error record of the refused [setrlimit]. *)
Lemma denylisted_import_not_rejected :
  (spec_import_targets comma_import_code = ["json"; "os"] /\
   spec_denylisted_import comma_import_code = true /\
   validate_code FORBIDDEN_MODULES comma_import_code = inr tt /\
   execute_code_in_process import_fails_world comma_import_code ∅ =
     ((limit_events ++
       [EvCompile comma_import_code;
        EvExec (MkCode comma_import_code) (update create_safe_globals ∅)])%list,
      Returned (MkResult "error" VNone (Some "__import__ not found")
                  (Some "Traceback (most recent call last): __import__ not found")))) /\
  (world_ok refused_world /\
   import_pattern os_code /\
   snd (execute_code_in_process refused_world os_code ∅) =
     Returned (MkResult "error" VNone
                 (Some "not allowed to raise maximum limit")
                 (Some "Traceback (most recent call last): not allowed to raise maximum limit"))).
Proof.
  split; split_and!;
    first [by vm_compute | apply Permutation_refl
          | apply os_code_import_pattern].
Qed.

(** ** Marshaling *)

Lemma to_dict_error_result msg :
  to_dict (error_result msg) = [("status", VStr "error"); ("error", VStr msg)].
Proof. reflexivity. Qed.

Lemma to_dict_error_result_tb msg tb :
  to_dict (error_result_tb msg tb) =
  [("status", VStr "error"); ("error", VStr msg); ("traceback", VStr tb)].
Proof. reflexivity. Qed.

Lemma to_dict_success_result v :
  to_dict (success_result v) =
  if is_None v then [("status", VStr "success")]
  else [("status", VStr "success"); ("result", v)].
Proof. unfold to_dict. simpl. by destruct (is_None v). Qed.

(** [to_dict] keeps exactly the fields that are not None, whatever the
    record. *)
Lemma to_dict_omits_none (r : ExecutionResult) (k : string) (v : value) :
  In (k, v) (to_dict r) <-> In (k, v) (fields r) /\ is_None v = false.
Proof.
  unfold to_dict. rewrite filter_In. simpl.
  by rewrite negb_true_iff.
Qed.

Lemma response_shape_error msg : response_shape (to_dict (error_result msg)).
Proof. right; right; left. by exists msg. Qed.

Lemma response_shape_error_tb msg tb :
  response_shape (to_dict (error_result_tb msg tb)).
Proof. right; right; right. by exists msg, tb. Qed.

Lemma response_shape_success v : response_shape (to_dict (success_result v)).
Proof.
  rewrite to_dict_success_result. destruct (is_None v) eqn:Hv.
  - by left.
  - right; left. by exists v.
Qed.

(** ** The supervisor *)

(** A worker that has not answered when the deadline expires makes the
    body of the with block yield the timeout record; a worker the kernel
    killed makes it yield the record of the broken pool. *)
Lemma deadline_expiry_is_timeout (w : world) code params tr :
  _execute_code_safely w code params [] = (tr, Stall) ->
  execute_code_in_process w code params =
    (tr, Returned (error_result "Execution timeout")).
Proof. intros H. unfold execute_code_in_process. by rewrite H. Qed.

Lemma killed_worker_is_error (w : world) code params tr :
  _execute_code_safely w code params [] = (tr, Killed) ->
  execute_code_in_process w code params =
    (tr, Returned (error_result_tb (exc_msg BrokenProcessPool)
                     (format_exc w BrokenProcessPool))).
Proof. intros H. unfold execute_code_in_process. by rewrite H. Qed.

Lemma handled_ret (w : world) (e : exn) (r : ExecutionResult) :
  handled w e = Ret r ->
  status r = "error" /\ result r = VNone /\ response_shape (to_dict r).
Proof.
  unfold handled. destruct e as [cls m]. destruct cls; simpl; intros [= <-].
  - split_and!; [done..|]. apply response_shape_error.
  - split_and!; [done..|]. apply response_shape_error_tb.
  - split_and!; [done..|]. apply response_shape_error_tb.
Qed.

Lemma handled_raise (w : world) (e e' : exn) :
  handled w e = Raise e' -> e' = e /\ is_Exception e = false.
Proof.
  unfold handled, is_Exception. destruct e as [cls m].
  destruct cls; simpl; intros [= <-]; auto.
Qed.

Lemma interrupted_ret {A} (w : world) (o : outcome A) (r : ExecutionResult) :
  interrupted w o = Some (Ret r) ->
  status r = "error" /\ result r = VNone /\ response_shape (to_dict r).
Proof.
  destruct o as [a|e| | |]; simpl; intros [= H]. by apply handled_ret in H.
Qed.

Lemma interrupted_raise {A} (w : world) (o : outcome A) (e : exn) :
  interrupted w o = Some (Raise e) -> o = Raise e /\ is_Exception e = false.
Proof.
  destruct o as [a|e0| | |]; simpl; intros [= H].
  apply handled_raise in H as [-> Hne]. done.
Qed.

(** The records the worker returns have the wire shape; a record whose
    result is not data comes from the entry point. *)
Lemma worker_run_ret (w : world) code params tr (r : ExecutionResult) :
  worker_run w code params tr (Ret r) ->
  response_shape (to_dict r) /\
  (result r = VNone \/
   (limits_ok w /\ validate_code (set_order w) code = inr tt /\
    returned_by_main w code params (result r) /\
    r = success_result (result r))).
Proof.
  intros Hrun. remember (Ret r) as o eqn:Ho.
  destruct Hrun as [tr r' v msg Hr Hos Hun | msg Hok Hv | o r' Hok Hv Hc Hi
                    | c o r' Hok Hv Hc He Hi | c g Hok Hv Hc He Hm
                    | c g main o r' Hok Hv Hc He Hm Hcall Hi
                    | c g main v Hok Hv Hc He Hm Hcall].
  - injection Ho as <-. split; [apply response_shape_error_tb | by left].
  - injection Ho as <-. split; [apply response_shape_error | by left].
  - subst r'. apply interrupted_ret in Hi as (_ & Hn & Hs). auto.
  - subst r'. apply interrupted_ret in Hi as (_ & Hn & Hs). auto.
  - injection Ho as <-. split; [apply response_shape_error | by left].
  - subst r'. apply interrupted_ret in Hi as (_ & Hn & Hs). auto.
  - injection Ho as <-. split; [apply response_shape_success|]. right.
    split_and!; [done.. | by exists c, g, main | done].
Qed.

(** An exception leaves the worker only when the submitted code raised it
    and it does not derive from Exception. *)
Lemma worker_run_raise (w : world) code params tr (e : exn) :
  worker_run w code params tr (Raise e) ->
  limits_ok w /\ validate_code (set_order w) code = inr tt /\
  raised_at w code params e /\ is_Exception e = false.
Proof.
  intros Hrun. remember (Raise e) as o eqn:Ho.
  destruct Hrun as [tr r' v msg Hr Hos Hun | msg Hok Hv | o r' Hok Hv Hc Hi
                    | c o r' Hok Hv Hc He Hi | c g Hok Hv Hc He Hm
                    | c g main o r' Hok Hv Hc He Hm Hcall Hi
                    | c g main v Hok Hv Hc He Hm Hcall];
    try discriminate.
  - subst r'. apply interrupted_raise in Hi as [-> Hne].
    split_and!; [done.. | by left | done].
  - subst r'. apply interrupted_raise in Hi as [-> Hne].
    split_and!; [done.. | right; left; by exists c | done].
  - subst r'. apply interrupted_raise in Hi as [-> Hne].
    split_and!; [done.. | right; right; by exists c, g, main | done].
Qed.

(** The worker never returns the timeout record itself. *)
Lemma worker_run_not_timeout (w : world) code params tr :
  ~ worker_run w code params tr (Ret (error_result "Execution timeout")).
Proof.
  intros Hrun. remember (Ret (error_result "Execution timeout")) as o eqn:Ho.
  assert (forall A (o' : outcome A),
             interrupted w o' <> Some (Ret (error_result "Execution timeout")))
    as Hint.
  { intros A [a|[cls m]| | |]; simpl; try done. unfold handled.
    destruct cls; simpl; intros [= H]; discriminate. }
  destruct Hrun as [tr r' v msg Hr Hos Hun | msg Hok Hv | o r' Hok Hv Hc Hi
                    | c o r' Hok Hv Hc He Hi | c g Hok Hv Hc He Hm
                    | c g main o r' Hok Hv Hc He Hm Hcall Hi
                    | c g main v Hok Hv Hc He Hm Hcall];
    try discriminate; subst r'; by apply Hint in Hi.
Qed.

(** Whatever the worker does, the body of the with block either yields a
    record of the wire shape or lets through an exception outside
    Exception. *)
Lemma answer_cases (w : world) code params tr o :
  worker_run w code params tr o ->
  (exists r, answer w o = Returned r /\ response_shape (to_dict r)) \/
  (exists e, answer w o = Propagated e /\ is_Exception e = false).
Proof.
  intros Hrun. destruct (answer w o) as [r|e] eqn:Hans.
  - left. exists r. split; [done|].
    apply answer_returned in Hans
      as [[-> _]|[[-> _]|(msg & tb & ->)]].
    + by apply worker_run_ret in Hrun as [Hshape _].
    + apply response_shape_error.
    + apply response_shape_error_tb.
  - right. exists e. split; [done|].
    by apply answer_propagated in Hans as [Hne _].
Qed.

(** C8: every record [execute_code_in_process] returns marshals to a
    mapping whose [status] is [success] or [error], with [result] only on
    success, [error] and possibly [traceback] only on error; [to_dict]
    keeps the fields that hold a value and omits those holding None. *)
Theorem to_dict_response_shape
    (w : world) (code : string) (params : gmap string value)
    (r : ExecutionResult) :
  snd (execute_code_in_process w code params) = Returned r ->
  response_shape (to_dict r) /\
  (forall k v, In (k, v) (to_dict r) <->
               In (k, v) (fields r) /\ is_None v = false).
Proof.
  intros Hres. split; [| intros k v; apply to_dict_omits_none].
  destruct (execute_code_in_process w code params) as [tr res] eqn:Hreq.
  simpl in Hres. subst res.
  apply execute_code_in_process_run in Hreq as (o & Hrun & Hans).
  destruct (answer_cases _ _ _ _ _ Hrun) as [(r' & Hr' & Hshape)|(e & He & _)];
    congruence.
Qed.

Lemma to_dict_response_shape_witness :
  response_shape (to_dict (success_result (VDict [("sum", VInt 30)]))) /\
  (forall k v,
      In (k, v) (to_dict (success_result (VDict [("sum", VInt 30)]))) <->
      In (k, v) (fields (success_result (VDict [("sum", VInt 30)]))) /\
      is_None v = false).
Proof.
  apply (to_dict_response_shape sum_world sum_code sum_params).
  by vm_compute.
Defined.

(** C5, as amended: every failure inside the worker that is an exception
    derived from Exception (a refused ceiling, a rejected text, an
    exception raised while compiling, executing or invoking), a killed
    worker, an answer that cannot be pickled and a missing answer by the
    deadline make the body of the with block yield a record of the wire
    shape.  The caller receives it when the block has been left: the call
    fails to return exactly when the worker never ends.  The only
    exceptions the call lets through do not derive from Exception, come
    from the submitted code (raised while compiling, executing or
    invoking, or raised by pickling what the code raised or returned) and
    can themselves be pickled. *)
Theorem failures_become_results
    (w : world) (code : string) (params : gmap string value) :
  (execute_code_in_process_call w code params = None <->
   snd (_execute_code_safely w code params []) = Hang) /\
  (forall res,
      execute_code_in_process_call w code params = Some res ->
      match res with
      | Returned r => response_shape (to_dict r)
      | Propagated e => is_Exception e = false /\ escapes w code params e
      end).
Proof.
  unfold execute_code_in_process_call.
  rewrite execute_code_in_process_answer. simpl.
  destruct (_execute_code_safely w code params []) as [tr o] eqn:Hrun.
  simpl. apply worker_run_complete in Hrun. split.
  - destruct o; simpl; split; done.
  - intros res Hcall.
    assert (res = answer w o) as ->
      by (destruct o; simpl in Hcall; congruence).
    clear Hcall. destruct (answer w o) as [r|e] eqn:Hans.
    + destruct (answer_cases _ _ _ _ _ Hrun)
        as [(r' & Hr' & Hshape)|(e & He & _)]; congruence.
    + apply answer_propagated in Hans
        as (Hne & Hpe & [->|[(e0 & -> & Hp0)|(r & -> & Hp)]]).
      * apply worker_run_raise in Hrun as (Hok & Hv & Hraised & _).
        split; [done|]. split_and!; [done..|]. by left.
      * apply worker_run_raise in Hrun as (Hok & Hv & Hraised & Hne0).
        split; [done|]. split_and!; [done..|]. right; left. by exists e0.
      * apply worker_run_ret in Hrun as [_ [Hnone|(Hok & Hv & Hmain & _)]].
        -- unfold pickle_value in Hp. rewrite Hnone in Hp. discriminate.
        -- split; [done|]. split_and!; [done..|]. right; right.
           by exists (result r).
Qed.

(** Scenario 4 of the specification, seen from the caller. *)
Lemma failures_become_results_witness :
  response_shape
    (to_dict (error_result_tb "division by zero"
                "Traceback (most recent call last): division by zero")).
Proof.
  destruct (failures_become_results division_world division_code ∅)
    as [_ Hres].
  apply (Hres (Returned (error_result_tb "division by zero"
                 "Traceback (most recent call last): division by zero"))).
  by vm_compute.
Defined.

(** C5, as stated, fails: an entry point that raises BaseException (which
    the snippet reaches from the allowed builtin [type]) passes validation,
    is not caught by [except Exception] in the worker nor in the
    supervisor, and leaves [execute_code_in_process] as a raw exception;
    and a snippet that blocks for ever keeps the call from returning at
    all. *)
Lemma base_exception_escapes :
  validate_code FORBIDDEN_MODULES base_exception_code = inr tt /\
  snd (_execute_code_safely base_exception_world base_exception_code ∅ []) =
    Raise (MkExn NonException "boom") /\
  snd (execute_code_in_process base_exception_world base_exception_code ∅) =
    Propagated (MkExn NonException "boom") /\
  execute_code_in_process_call base_exception_world base_exception_code ∅ =
    Some (Propagated (MkExn NonException "boom")) /\
  execute_code_in_process_call hang_world wait_code ∅ = None.
Proof. by vm_compute. Qed.




(** ** The missing entry point *)

(** X5: when [params] has no key [main] and the unit leaves [main] unbound,
    the request ends in the record of the missing entry point and nothing
    is invoked. *)
Lemma missing_main_reported
    (w : world) (code : string) (params : gmap string value)
    (c : code_obj) (g : gmap string value) :
  limits_ok w ->
  validate_code (set_order w) code = inr tt ->
  py_compile w code = Ret c ->
  py_exec w c (update create_safe_globals params) = Ret g ->
  g !! "main" = None ->
  execute_code_in_process w code params =
    ((limit_events ++
      [EvCompile code; EvExec c (update create_safe_globals params)])%list,
     Returned (error_result "No main function defined")).
Proof.
  intros Hok Hv Hc He Hm.
  destruct (execute_code_in_process w code params) as [tr res] eqn:Hreq.
  apply execute_code_in_process_run in Hreq as (o & Hrun & ->).
  destruct Hrun as [tr r v msg Hr Hos Hun | msg _ Hv' | o r _ _ Hc' Hi
                    | c' o r _ _ Hc' He' Hi | c' g' _ _ Hc' He' Hm'
                    | c' g' main o r _ _ Hc' He' Hm' Hcall Hi
                    | c' g' main v _ _ Hc' He' Hm' Hcall].
  - destruct (limits_ok_refused _ _ _ _ Hok Hr Hos).
  - congruence.
  - subst o. rewrite Hc in Hi. discriminate.
  - assert (c' = c) as -> by congruence.
    subst o. rewrite He in Hi. discriminate.
  - by assert (c' = c) as -> by congruence.
  - assert (c' = c) as -> by congruence. congruence.
  - assert (c' = c) as -> by congruence. congruence.
Qed.

(** C6 at the request {"code": "x = 1", "params": {"main": 1}}: the unit
    runs and defines no [main], but the key [main] of [params] is in the
    globals, so the membership test passes, the integer is called, and the
    request ends in the TypeError record instead of "No main function
    defined". *)
Lemma params_main_hides_missing_entry_point :
  validate_code FORBIDDEN_MODULES assign_code = inr tt /\
  create_safe_globals !! "main" = None /\
  py_exec assign_world (MkCode assign_code)
    (update create_safe_globals main_params) =
    Ret (<["x" := VInt 1]> (update create_safe_globals main_params)) /\
  In (EvCall (VInt 1) main_params)
    (fst (execute_code_in_process assign_world assign_code main_params)) /\
  snd (execute_code_in_process assign_world assign_code main_params) =
    Returned (error_result_tb "'int' object is not callable"
                "Traceback (most recent call last): 'int' object is not callable").
Proof.
  split_and!; try by vm_compute.
  vm_compute. do 7 right. by left.
Qed.

(** * Further properties of the code *)

(** ** validate_code under extension of the text *)

Lemma string_append_assoc (a b c : string) :
  (a +:+ b) +:+ c = a +:+ (b +:+ c).
Proof.
  induction a as [|x a IH]; [done|].
  rewrite !append_cons. by rewrite IH.
Qed.

Lemma occurs_in_extend (n code pre post : string) :
  occurs_in n code -> occurs_in n (pre +:+ code +:+ post).
Proof.
  intros (a & b & ->). exists (pre +:+ a), (b +:+ post).
  by rewrite !string_append_assoc.
Qed.

Lemma contains_extend (n code pre post : string) :
  contains n code = true -> contains n (pre +:+ code +:+ post) = true.
Proof. rewrite !contains_occurs. apply occurs_in_extend. Qed.

Lemma import_hit_extend (code pre post m : string) :
  import_hit code m = true -> import_hit (pre +:+ code +:+ post) m = true.
Proof.
  unfold import_hit. rewrite !orb_true_iff.
  intros [H|H]; [left|right]; by apply contains_extend.
Qed.

(** X1: whatever is put before or after a rejected text, the result is
    rejected as well, for every iteration order of the denylist. *)
Theorem validate_code_rejects_extensions
    (order : list string) (code pre post msg : string) :
  validate_code order code = inl msg ->
  exists msg', validate_code order (pre +:+ code +:+ post) = inl msg'.
Proof.
  unfold validate_code. intros Hrej.
  destruct (forbidden_import order (pre +:+ code +:+ post)) as [m'|] eqn:Hf';
    [by eexists|].
  destruct (forbidden_import order code) as [m|] eqn:Hf.
  { apply forbidden_import_some in Hf as [Hin Hhit].
    rewrite forbidden_import_none in Hf'. specialize (Hf' m Hin).
    rewrite (import_hit_extend _ pre post _ Hhit) in Hf'. discriminate. }
  destruct (contains "eval(" code || contains "exec(" code) eqn:He.
  { apply orb_true_iff in He.
    assert (contains "eval(" (pre +:+ code +:+ post)
            || contains "exec(" (pre +:+ code +:+ post) = true) as ->
      by (apply orb_true_iff; destruct He; [left|right];
          by apply contains_extend).
    by eexists. }
  destruct (contains "open(" code || contains "file(" code) eqn:Ho;
    [|discriminate].
  apply orb_true_iff in Ho.
  assert (contains "open(" (pre +:+ code +:+ post)
          || contains "file(" (pre +:+ code +:+ post) = true) as ->
    by (apply orb_true_iff; destruct Ho; [left|right];
        by apply contains_extend).
  destruct (contains "eval(" (pre +:+ code +:+ post) || contains "exec(" (pre +:+ code +:+ post)); by eexists.
Qed.

Lemma validate_code_rejects_extensions_witness :
  exists msg',
    validate_code FORBIDDEN_MODULES ("y = 2; " +:+ eval_code +:+ "; z = 3") =
      inl msg'.
Proof.
  apply (validate_code_rejects_extensions FORBIDDEN_MODULES eval_code
           "y = 2; " "; z = 3" "Using eval() or exec() is not allowed").
  by vm_compute.
Defined.

(** ** The worker beyond the claims *)

(** X2: with the ceilings installed, a text that [validate_code] rejects,
    for whichever of its three reasons, ends in the security-violation
    record of that reason; the trace holds the five [setrlimit] calls and
    nothing else. *)
Theorem rejection_is_security_violation
    (w : world) (code : string) (params : gmap string value) (msg : string) :
  limits_ok w ->
  validate_code (set_order w) code = inl msg ->
  execute_code_in_process w code params =
    (limit_events, Returned (error_result ("Security violation: " +:+ msg))).
Proof.
  intros Hok Hval.
  destruct (execute_code_in_process w code params) as [tr res] eqn:Hreq.
  apply execute_code_in_process_run in Hreq as (o & Hrun & ->).
  destruct Hrun as [tr r v msg' Hr Hos Hun | msg' _ Hv | | | | |];
    try congruence.
  - destruct (limits_ok_refused _ _ _ _ Hok Hr Hos).
  - rewrite Hval in Hv. by injection Hv as <-.
Qed.

Lemma rejection_is_security_violation_witness :
  execute_code_in_process granted_world eval_code ∅ =
    (limit_events,
     Returned (error_result
       ("Security violation: " +:+ "Using eval() or exec() is not allowed"))).
Proof.
  apply (rejection_is_security_violation granted_world eval_code ∅).
  - by apply limits_granted_ok.
  - by vm_compute.
Defined.

(** X3: [set_resource_limits] stops at the first ceiling the kernel
    refuses: the ceilings before it have been installed, the refused call
    is the last one made, the failure is logged once and re-raised, and the
    ceilings after it are never attempted. *)
Theorem set_resource_limits_stops_at_first_refusal
    (w : world) (n : nat) (r : rlimit) (v : Z) (msg : string) :
  RESOURCE_LIMITS !! n = Some (r, v) ->
  os_setrlimit w r v v = Some msg ->
  (forall i r' v', (i < n)%nat -> RESOURCE_LIMITS !! i = Some (r', v') ->
                   os_setrlimit w r' v' v' = None) ->
  set_resource_limits w [] =
    ((take (S n) limit_events ++
      [EvLogError ("Failed to set resource limits: " +:+ msg)])%list,
     Raise (MkExn OtherException msg)).
Proof.
  intros Hn Hos Hbefore.
  unfold set_resource_limits, setrlimit. unfold_proc.
  destruct n as [|[|[|[|[|n]]]]]; simpl in Hn; [..|discriminate];
    injection Hn as <- <-.
  - simpl. by rewrite Hos.
  - simpl. rewrite (Hbefore 0%nat RLIMIT_CPU CPU_TIME) by (done || lia).
    simpl. by rewrite Hos.
  - simpl. rewrite (Hbefore 0%nat RLIMIT_CPU CPU_TIME) by (done || lia).
    simpl. rewrite (Hbefore 1%nat RLIMIT_AS MEMORY) by (done || lia).
    simpl. by rewrite Hos.
  - simpl. rewrite (Hbefore 0%nat RLIMIT_CPU CPU_TIME) by (done || lia).
    simpl. rewrite (Hbefore 1%nat RLIMIT_AS MEMORY) by (done || lia).
    simpl. rewrite (Hbefore 2%nat RLIMIT_FSIZE FILE_SIZE) by (done || lia).
    simpl. by rewrite Hos.
  - simpl. rewrite (Hbefore 0%nat RLIMIT_CPU CPU_TIME) by (done || lia).
    simpl. rewrite (Hbefore 1%nat RLIMIT_AS MEMORY) by (done || lia).
    simpl. rewrite (Hbefore 2%nat RLIMIT_FSIZE FILE_SIZE) by (done || lia).
    simpl. rewrite (Hbefore 3%nat RLIMIT_NPROC PROCESSES) by (done || lia).
    simpl. by rewrite Hos.
Qed.

Lemma set_resource_limits_stops_at_first_refusal_witness :
  set_resource_limits refused_world [] =
    ([EvSetLimit RLIMIT_CPU CPU_TIME CPU_TIME;
      EvSetLimit RLIMIT_AS MEMORY MEMORY;
      EvLogError ("Failed to set resource limits: " +:+
                  "not allowed to raise maximum limit")],
     Raise (MkExn OtherException "not allowed to raise maximum limit")).
Proof.
  apply (set_resource_limits_stops_at_first_refusal refused_world 1
           RLIMIT_AS MEMORY "not allowed to raise maximum limit").
  - reflexivity.
  - reflexivity.
  - intros i r' v' Hi Hl. reflexivity || (destruct i; [by injection Hl as <- <- | lia]).
Defined.

(** X4: with the ceilings installed and the text accepted, an exception
    raised while compiling, while running the unit or while calling the
    entry point is reported by class: a SecurityError as a security
    violation without traceback, any other exception derived from
    Exception as the error record with [str(e)] and the traceback.  An
    exception outside Exception leaves the worker and is pickled for the
    supervisor: when it can be pickled it is passed on to the caller, and
    when pickling it raises, the supervisor handles that failure
    instead. *)
Theorem raised_exception_is_reported
    (w : world) (code : string) (params : gmap string value) (e : exn) :
  limits_ok w ->
  validate_code (set_order w) code = inr tt ->
  raised_at w code params e ->
  snd (execute_code_in_process w code params) = reported w e.
Proof.
  intros Hok Hval Hraise.
  destruct (execute_code_in_process w code params) as [tr res] eqn:Hreq.
  apply execute_code_in_process_run in Hreq as (o & Hrun & ->). simpl.
  assert (forall A r, interrupted w (Raise e : outcome A) = Some r ->
                      answer w r = reported w e) as Hrep.
  { intros A r [= <-]. unfold handled, reported, answer, wait_for.
    destruct e as [cls m]; destruct cls; simpl; try done.
    by destruct (py_pickle_exc w (MkExn NonException m)). }
  destruct Hrun as [tr r v msg Hr Hos Hun | msg _ Hv' | o r _ _ Hc' Hi
                    | c' o r _ _ Hc' He' Hi | c' g' _ _ Hc' He' Hm'
                    | c' g' main' o r _ _ Hc' He' Hm' Hcall' Hi
                    | c' g' main' v' _ _ Hc' He' Hm' Hcall'].
  - destruct (limits_ok_refused _ _ _ _ Hok Hr Hos).
  - congruence.
  - subst o.
    destruct Hraise as [Hc|[(c & Hc & _)|(c & g & main & Hc & _)]];
      rewrite Hc in Hi; [by eapply Hrep | discriminate..].
  - subst o.
    destruct Hraise as [Hc|[(c & Hc & He)|(c & g & main & Hc & He & _)]];
      [congruence | |];
      (assert (c' = c) as -> by congruence); rewrite He in Hi;
      [by eapply Hrep | discriminate].
  - destruct Hraise as [Hc|[(c & Hc & He)|(c & g & main & Hc & He & Hm & Hcall)]];
      [congruence | |];
      (assert (c' = c) as -> by congruence); [congruence|].
    assert (g' = g) as -> by congruence. congruence.
  - subst o.
    destruct Hraise
      as [Hc|[(c & Hc & He)|(c & g & main & Hc & He & Hm & Hcall)]];
      [congruence | |];
      (assert (c' = c) as -> by congruence); [congruence|].
    assert (g' = g) as -> by congruence.
    assert (main' = main) as -> by congruence.
    rewrite Hcall in Hi. by eapply Hrep.
  - destruct Hraise
      as [Hc|[(c & Hc & He)|(c & g & main & Hc & He & Hm & Hcall)]];
      [congruence | |];
      (assert (c' = c) as -> by congruence); [congruence|].
    assert (g' = g) as -> by congruence.
    assert (main' = main) as -> by congruence. congruence.
Qed.

(** Scenario 4 of the specification. *)
Lemma raised_exception_is_reported_witness :
  snd (execute_code_in_process division_world division_code ∅) =
    Returned (error_result_tb "division by zero"
                "Traceback (most recent call last): division by zero").
Proof.
  apply (raised_exception_is_reported division_world division_code ∅
           (MkExn OtherException "division by zero")).
  - by apply limits_granted_ok.
  - by vm_compute.
  - right; right. eexists _, _, _. split_and!; by vm_compute.
Defined.

Lemma missing_main_reported_witness :
  execute_code_in_process assign_world assign_code ∅ =
    ((limit_events ++
      [EvCompile assign_code;
       EvExec (MkCode assign_code) (update create_safe_globals ∅)])%list,
     Returned (error_result "No main function defined")).
Proof.
  apply (missing_main_reported assign_world assign_code ∅
           (MkCode assign_code)
           (<["x" := VInt 1]> (update create_safe_globals ∅)));
    first [by apply limits_granted_ok | by vm_compute].
Defined.

(** X6: the caller receives the record [{status: error, error:
    "Execution timeout"}] exactly when the worker has not answered by the
    deadline and ends later, or when pickling what the worker returned or
    raised fails with an exception of the class the supervisor takes for
    the expiry; no other way through the worker or the supervisor
    produces that record. *)
Theorem timeout_record_iff_no_answer
    (w : world) (code : string) (params : gmap string value) :
  execute_code_in_process_call w code params =
    Some (Returned (MkResult "error" VNone (Some "Execution timeout") None))
  <->
  (snd (_execute_code_safely w code params []) = Stall \/
   exists e,
     pickling_failure w (snd (_execute_code_safely w code params [])) =
       Some e /\
     exc_cls (sent_instead w e) = TimeoutError).
Proof.
  unfold execute_code_in_process_call.
  rewrite execute_code_in_process_answer. simpl.
  destruct (_execute_code_safely w code params []) as [tr o] eqn:Hrun.
  simpl. apply worker_run_complete in Hrun. split.
  - intros Hcall.
    assert (o <> Hang /\
            answer w o = Returned (error_result "Execution timeout"))
      as [Hnh Hans]
      by (destruct o; simpl in Hcall; try discriminate;
          (split; [done | by inversion Hcall])).
    clear Hcall.
    apply answer_returned in Hans
      as [[-> _]|[[_ [->|[->|[Hp|(e & -> & He)]]]]|(msg & tb & Hr)]].
    + by apply worker_run_not_timeout in Hrun.
    + by left.
    + done.
    + by right.
    + apply worker_run_raise in Hrun as (_ & _ & _ & Hne). congruence.
    + discriminate.
  - intros [->|(e & Hp & Hc)]; [done|].
    unfold answer, wait_for. unfold pickling_failure in Hp.
    destruct o as [r|e0| | |]; try discriminate; simpl; rewrite Hp;
      unfold supervised; by rewrite Hc.
Qed.

(** Scenario 3 of the specification, and an entry point whose returned
    value fails to pickle with the exception of the expiry. *)
Lemma timeout_record_iff_no_answer_witness :
  execute_code_in_process_call loop_world loop_code ∅ =
    Some (Returned (MkResult "error" VNone (Some "Execution timeout") None))
  /\
  execute_code_in_process_call pickle_timeout_world pickle_timeout_code ∅ =
    Some (Returned (MkResult "error" VNone (Some "Execution timeout") None)).
Proof.
  split.
  - apply (timeout_record_iff_no_answer loop_world loop_code ∅).
    left. by vm_compute.
  - apply (timeout_record_iff_no_answer pickle_timeout_world
             pickle_timeout_code ∅).
    right. exists (MkExn TimeoutError "late"). by vm_compute.
Defined.



(** X7: submitted code is handed to the interpreter (compiled, executed or
    invoked) only in a request in which all five ceilings were installed
    and [validate_code] accepted the text; the trace then begins with the
    five [setrlimit] calls. *)
Theorem code_touched_only_when_confined
    (w : world) (code : string) (params : gmap string value)
    (tr : list event) (res : call_result) (ev : event) :
  execute_code_in_process w code params = (tr, res) ->
  In ev tr ->
  touches_code ev = true ->
  limits_ok w /\
  validate_code (set_order w) code = inr tt /\
  exists rest, tr = (limit_events ++ EvCompile code :: rest)%list.
Proof.
  intros Hreq Hin Hev.
  apply execute_code_in_process_run in Hreq as (o & Hrun & _).
  destruct Hrun as [tr r v msg Hr Hos Hun | msg Hok Hv | o r Hok Hv Hc Hi
                    | c o r Hok Hv Hc He Hi | c g Hok Hv Hc He Hm
                    | c g main o r Hok Hv Hc He Hm Hcall Hi
                    | c g main v Hok Hv Hc He Hm Hcall].
  - by apply (code_untouched_not_in _ _ Hun) in Hin.
  - by apply (code_untouched_not_in _ _ code_untouched_limit_events) in Hin.
  - split_and!; [done..|]. by eexists.
  - split_and!; [done..|]. by eexists.
  - split_and!; [done..|]. by eexists.
  - split_and!; [done..|]. by eexists.
  - split_and!; [done..|]. by eexists.
Qed.

Lemma code_touched_only_when_confined_witness :
  limits_ok sum_world /\
  validate_code (set_order sum_world) sum_code = inr tt /\
  exists rest,
    fst (execute_code_in_process sum_world sum_code sum_params) =
      (limit_events ++ EvCompile sum_code :: rest)%list.
Proof.
  apply (code_touched_only_when_confined sum_world sum_code sum_params
           (fst (execute_code_in_process sum_world sum_code sum_params))
           (snd (execute_code_in_process sum_world sum_code sum_params))
           (EvCompile sum_code)).
  - by destruct (execute_code_in_process sum_world sum_code sum_params).
  - vm_compute. do 5 right. by left.
  - reflexivity.
Defined.

Lemma exec_event_globals (w : world) code params tr o c g :
  worker_run w code params tr o ->
  In (EvExec c g) tr ->
  g = update create_safe_globals params.
Proof.
  intros Hrun Hin.
  destruct Hrun as [tr r v msg Hr Hos Hun | | | | | |].
  - by apply (code_untouched_not_in _ _ Hun) in Hin.
  - by apply (code_untouched_not_in _ _ code_untouched_limit_events) in Hin.
  - simpl in Hin. intuition discriminate.
  - simpl in Hin. intuition (try discriminate); congruence.
  - simpl in Hin. intuition (try discriminate); congruence.
  - simpl in Hin. intuition (try discriminate); congruence.
  - simpl in Hin. intuition (try discriminate); congruence.
Qed.



(** ** The client's view of a response *)

(** X9: what the client rebuilds from the mapping the server marshals is
    the server's record, field by field: the fields [to_dict] omitted
    because they held None come back as None. *)
Theorem from_dict_to_dict (r : ExecutionResult) :
  from_dict (to_dict r) = inr (response_of r).
Proof.
  destruct r as [st res err tb]. unfold to_dict, fields, response_of. simpl.
  destruct res; destruct err; destruct tb; reflexivity.
Qed.

Lemma dict_get_filter_annotated (k : string) (data : list (string * value)) :
  annotated k = true ->
  dict_get k (List.filter (fun kv => annotated (fst kv)) data) =
  dict_get k data.
Proof.
  intros Hk. induction data as [|[k' v] data IH]; [done|]. simpl.
  destruct (annotated k') eqn:Hk'; simpl.
  - by rewrite IH.
  - destruct (String.eqb k k') eqn:Heq; [|done].
    apply String.eqb_eq in Heq. congruence.
Qed.

(** X10: [from_dict] reads the four annotated keys and nothing else: an
    item under any other key changes nothing, a missing [result], [error]
    or [traceback] is None, and the construction fails exactly when the
    mapping has no [status]. *)
Theorem from_dict_reads_annotated_keys (data : list (string * value)) :
  (forall k v, annotated k = false ->
     from_dict ((k, v) :: data) = from_dict data) /\
  (dict_get "status" data = None <-> exists e, from_dict data = inl e) /\
  (forall st, dict_get "status" data = Some st ->
     from_dict data =
       inr (MkResponse st
              (default VNone (dict_get "result" data))
              (default VNone (dict_get "error" data))
              (default VNone (dict_get "traceback" data)))).
Proof.
  split_and!.
  - intros k v Hk. unfold from_dict. simpl. by rewrite Hk.
  - unfold from_dict. rewrite (dict_get_filter_annotated "status") by done.
    destruct (dict_get "status" data); split; try done.
    + by intros [e ?].
    + by eexists.
  - intros st Hst. unfold from_dict.
    rewrite !dict_get_filter_annotated by done. by rewrite Hst.
Qed.

Lemma from_dict_reads_annotated_keys_witness :
  from_dict [("status", VStr "success"); ("elapsed", VInt 3)] =
    inr (MkResponse (VStr "success") VNone VNone VNone).
Proof.
  apply (from_dict_reads_annotated_keys
           [("status", VStr "success"); ("elapsed", VInt 3)]).
  reflexivity.
Defined.

(** ** The request handler *)

Lemma json_response_error_result msg :
  json_response (to_dict (error_result msg)) =
  inr (MkHttp 200 [("status", VStr "error"); ("error", VStr msg)]).
Proof. reflexivity. Qed.

Lemma json_response_error_result_tb msg tb :
  json_response (to_dict (error_result_tb msg tb)) =
  inr (MkHttp 200 [("status", VStr "error"); ("error", VStr msg);
                   ("traceback", VStr tb)]).
Proof. reflexivity. Qed.

Lemma json_response_cases (d : list (string * value)) :
  json_response d = inr (MkHttp 200 d) \/
  exists e, json_response d = inl e /\ is_Exception e = true.
Proof.
  unfold json_response. destruct (forallb _ d); [by left|].
  right. by eexists.
Qed.

(** X11: a body without the key [params] is handled exactly as the same
    body with ["params": {}] put in front, whatever [code] is. *)
Theorem missing_params_are_empty
    (w : world) (u : value -> value -> list event * call_result)
    (d : list (string * value)) :
  dict_get "params" d = None ->
  handle_execute w u (inr (VDict d)) =
  handle_execute w u (inr (VDict (("params", VDict []) :: d))).
Proof.
  intros Hp. unfold handle_execute, match_data. simpl. rewrite Hp.
  by destruct (dict_get "code" d).
Qed.

Lemma missing_params_are_empty_witness :
  handle_execute none_world no_untyped (inr (VDict none_body)) =
  handle_execute none_world no_untyped
    (inr (VDict (("params", VDict []) :: none_body))).
Proof.
  apply (missing_params_are_empty none_world no_untyped none_body).
  reflexivity.
Defined.

(** X12: a request that cannot be dispatched never reaches the executor.
    A document that is not an object with the key [code] is answered with
    the record "Invalid request format", and a body whose parsing raises an
    exception derived from Exception with the error record of that
    exception; in both cases no ceiling is set and nothing is compiled. *)
Theorem undispatched_request_is_answered
    (w : world) (u : value -> value -> list event * call_result) :
  (forall data,
      (forall d, data = VDict d -> dict_get "code" d = None) ->
      handle_execute w u (inr data) =
        ([], inr (MkHttp 200 [("status", VStr "error");
                              ("error", VStr "Invalid request format")]))) /\
  (forall e,
      is_Exception e = true ->
      handle_execute w u (inl e) =
        ([EvLogError ("Request handling error: " +:+ exc_msg e +:+ nl
                      +:+ format_exc w e)],
         inr (MkHttp 200 [("status", VStr "error");
                          ("error", VStr (exc_msg e));
                          ("traceback", VStr (format_exc w e))]))).
Proof.
  split.
  - intros data Hno. unfold handle_execute.
    assert (match_data data = NoCase) as ->; [|done].
    destruct data; try done. simpl. by rewrite (Hno d).
  - intros e He. unfold handle_execute. by rewrite He.
Qed.

Lemma undispatched_request_is_answered_witness :
  handle_execute granted_world no_untyped
    (inr (VDict [("params", VDict [])])) =
    ([], inr (MkHttp 200 [("status", VStr "error");
                          ("error", VStr "Invalid request format")])).
Proof.
  apply (undispatched_request_is_answered granted_world no_untyped).
  intros d [= <-]. reflexivity.
Defined.

(** How the handler ends: a response with status 200, or an exception
    outside Exception. *)
Lemma handle_execute_cases
    (w : world) (u : value -> value -> list event * call_result)
    (request_json : exn + value) :
  (exists resp, snd (handle_execute w u request_json) = inr resp /\
                http_status resp = 200) \/
  (exists e, snd (handle_execute w u request_json) = inl e /\
             is_Exception e = false).
Proof.
  unfold handle_execute.
  assert (forall tr (attempt : exn + response),
             (forall resp, attempt = inr resp -> http_status resp = 200) ->
             let out :=
               snd (match attempt with
                    | inr resp => (tr, inr resp)
                    | inl e =>
                        if is_Exception e
                        then ((tr ++ [EvLogError
                                ("Request handling error: " +:+ exc_msg e
                                 +:+ nl +:+ format_exc w e)])%list,
                              json_response
                                (to_dict (error_result_tb (exc_msg e)
                                            (format_exc w e))))
                        else (tr, inl e)
                    end) in
             (exists resp, out = inr resp /\ http_status resp = 200) \/
             (exists e, out = inl e /\ is_Exception e = false)) as Hexcept.
  { intros tr [e|resp] Hresp; [|left; exists resp; split; [done|by apply Hresp]].
    destruct (is_Exception e) eqn:He; [|right; by exists e].
    left. rewrite json_response_error_result_tb. by eexists. }
  destruct request_json as [e|data].
  { exact (Hexcept [] (inl e) ltac:(by intros resp)). }
  destruct (match match_data data with
            | CodeAndParams code params => execute_values w u code params
            | CodeOnly code => execute_values w u code (VDict [])
            | NoCase => ([], Returned (error_result "Invalid request format"))
            end) as [tr [r|e]].
  - refine (Hexcept tr (json_response (to_dict r)) _). intros resp Hresp.
    destruct (json_response_cases (to_dict r)) as [Hj|(e & Hj & _)];
      rewrite Hj in Hresp; [by injection Hresp as <- | discriminate].
  - exact (Hexcept tr (inl e) ltac:(by intros resp)).
Qed.

(** X13: the handler never lets an exception derived from Exception out,
    and every response it returns has HTTP status 200, for every request
    (parsed or not, well-typed or not) and whatever the executor does with
    it. *)
Theorem handle_execute_contains_exceptions
    (w : world) (u : value -> value -> list event * call_result)
    (request_json : exn + value) :
  match snd (handle_execute w u request_json) with
  | inr resp => http_status resp = 200
  | inl e => is_Exception e = false
  end.
Proof.
  destruct (handle_execute_cases w u request_json)
    as [(resp & Hout & Hst)|(e & Hout & Hne)].
  - by rewrite Hout.
  - by rewrite Hout.
Qed.

Lemma to_dict_serializable (r : ExecutionResult) :
  json_serializable (result r) = true ->
  json_response (to_dict r) = inr (MkHttp 200 (to_dict r)).
Proof.
  intros Hres. unfold json_response.
  assert (forallb (fun kv => json_serializable (snd kv)) (to_dict r) = true)
    as ->; [|done].
  apply forallb_forall. intros [k v] Hin.
  apply to_dict_omits_none in Hin as [Hin _].
  destruct r as [st res err tb]. simpl in *.
  destruct Hin as [[= <- <-]|[[= <- <-]|[[= <- <-]|[[= <- <-]|[]]]]];
    [done | done | by destruct err | by destruct tb].
Qed.

Lemma typed_body_dispatch
    (w : world) (u : value -> value -> list event * call_result)
    (d : list (string * value)) :
  typed_body d ->
  exists s params,
    match match_data (VDict d) with
    | CodeAndParams code params => execute_values w u code params
    | CodeOnly code => execute_values w u code (VDict [])
    | NoCase => ([], Returned (error_result "Invalid request format"))
    end = execute_code_in_process w s params.
Proof.
  intros [[s Hs] [Hp|[p Hp]]]; simpl; rewrite Hs, Hp; by eexists _, _.
Qed.


Lemma sum_body_typed : typed_body sum_body.
Proof. split; [by eexists | right; by eexists]. Qed.




(** ** Metrics *)

Lemma count_counter_inc_eq (k : string * string) (c : gmap (string * string) nat) :
  count k (counter_inc k c) = S (count k c).
Proof. unfold count, counter_inc. by rewrite lookup_insert_eq. Qed.

Lemma count_counter_inc_ne (k k' : string * string)
    (c : gmap (string * string) nat) :
  k <> k' -> count k' (counter_inc k c) = count k' c.
Proof. intros Hne. unfold count, counter_inc. by rewrite lookup_insert_ne. Qed.

(** X16: a tracked function that leaves the in-progress gauge as it found
    it (which a tracked function itself does, so trackers nest) has the
    gauge restored when it returns and when it raises; the wrapper records
    exactly one duration and passes the result or the exception of the
    function on unchanged. *)
Theorem track_request_restores_gauge
    {float R : Type} (type_name_of : exn -> string) (endpoint : string)
    (status_of : R -> option string)
    (func : metrics float -> metrics float * (exn + R))
    (elapsed : float) (m : metrics float) :
  (forall m0, requests_in_progress (fst (func m0)) = requests_in_progress m0) ->
  requests_in_progress
    (fst (track_request type_name_of endpoint status_of func elapsed m)) =
    requests_in_progress m /\
  execution_time
    (fst (track_request type_name_of endpoint status_of func elapsed m)) =
    elapsed :: execution_time (fst (func (gauge_inc m))) /\
  snd (track_request type_name_of endpoint status_of func elapsed m) =
    snd (func (gauge_inc m)) /\
  (forall m0,
      requests_in_progress
        (fst (track_request type_name_of endpoint status_of func elapsed m0)) =
      requests_in_progress m0).
Proof.
  intros Hfunc.
  assert (forall m0,
             requests_in_progress
               (fst (track_request type_name_of endpoint status_of func
                       elapsed m0)) = requests_in_progress m0) as Hbal.
  { intros m0. unfold track_request. specialize (Hfunc (gauge_inc m0)).
    destruct (func (gauge_inc m0)) as [m' [e|r]]; simpl in *.
    - destruct (is_Exception e); simpl; lia.
    - lia. }
  split_and!; [apply Hbal | | | apply Hbal].
  - unfold track_request.
    destruct (func (gauge_inc m)) as [m' [e|r]]; simpl; [|done].
    by destruct (is_Exception e).
  - unfold track_request. by destruct (func (gauge_inc m)) as [m' [e|r]].
Qed.

Lemma track_request_restores_gauge_witness :
  requests_in_progress
    (fst (track_request (float := nat) (fun _ => "KeyError") "/execute"
            (fun _ : unit => None)
            (fun m => (m, inl (MkExn OtherException "boom"))) 3%nat
            fresh_metrics)) = 0.
Proof.
  apply (track_request_restores_gauge (float := nat) (fun _ => "KeyError")
           "/execute" (fun _ : unit => None)
           (fun m => (m, inl (MkExn OtherException "boom"))) 3%nat
           fresh_metrics).
  reflexivity.
Defined.

